(** * The safe expression evaluator of [calculatorphyton.py]

    A shallow embedding of [SafeEvaluator] and [Calculator] and the
    properties the specification states about them.

    Python objects are modelled as follows.
    - [int] is [Z]; [float] is Rocq's primitive binary64 [float]; [str] is
      [string] (ASCII text); [tuple] and [list] are lists of values tagged
      with their type; a [dict] is an insertion-ordered association list.
    - An exception is a value of [exn]; a computation that may raise
      returns a [result].
    - [Calculator] methods mutate the session: they are functions from the
      session to an outcome and the session left behind, so that whatever
      was written before an exception is raised stays written.
    - The CPython runtime (version 3.11) is modelled where its behaviour is
      exact arithmetic or IEEE 754; the C library's floating-point
      functions, complex arithmetic, [%]-formatting of strings and the
      text of [ast.parse] are parameters of the development. *)

From Stdlib Require Import ZArith Lia Bool List String Ascii Floats.
From Stdlib Require DecimalString.
Import ListNotations.
Local Open Scope string_scope.
Local Open Scope Z_scope.
Local Open Scope list_scope.

Set Implicit Arguments.
Set Warnings "-register-all".

(** ** Exceptions and results *)

(** The exception classes CPython itself raises in the modelled code. *)
Inductive exn_class : Type :=
| CValueError
| CTypeError
| CZeroDivisionError
| COverflowError
| CAttributeError
| COSError.

(** [ValueError msg] and [NameError msg] are the exceptions the source
    raises, with the message it formats; [Builtin c] is an exception of
    class [c] raised by the interpreter or by a library function (its
    message is CPython's and is not recorded). *)
Inductive exn : Type :=
| ValueError (msg : string)
| NameError (msg : string)
| Builtin (cls : exn_class).

Inductive result (A : Type) : Type :=
| Ok (a : A)
| Err (e : exn).

Arguments Ok {A} a.
Arguments Err {A} e.

Definition bind {A B : Type} (r : result A) (k : A -> result B) : result B :=
  match r with
  | Ok a => k a
  | Err e => Err e
  end.

Declare Scope py_scope.
Delimit Scope py_scope with py.
Notation "x <- r ;; k" := (bind r (fun x => k))
  (at level 61, r at next level, right associativity) : py_scope.
Notation "r ;;; k" := (bind r (fun _ => k))
  (at level 61, right associativity) : py_scope.
Local Open Scope py_scope.

(** [ZeroDivisionError] and [OverflowError] derive from Python's
    [ArithmeticError]; the other classes do not. *)
Definition is_ArithmeticError (e : exn) : bool :=
  match e with
  | Builtin CZeroDivisionError | Builtin COverflowError => true
  | _ => false
  end.

(** ** Values *)

(** The callables reachable through [ALLOWED_GLOBALS]: a function of the
    [math] module, a function of the [cmath] module, or one of the five
    lambdas of [UTIL_FUNCS]. *)
Inductive callable : Type :=
| Math (name : string)
| CMath (name : string)
| lambda_avg
| lambda_sum
| lambda_min
| lambda_max
| lambda_pct.

Inductive value : Type :=
| VNone
| VBool (b : bool)
| VInt (z : Z)
| VFloat (f : float)
| VComplex (re im : float)
| VStr (s : string)
| VTuple (elts : list value)
| VList (elts : list value)
| VFunc (f : callable).

(** ** Dictionaries

    A Python [dict] keeps its keys in insertion order; writing an existing
    key replaces the value in place. *)
Definition dict (V : Type) : Type := list (string * V).

Fixpoint dict_get {V : Type} (d : dict V) (k : string) : option V :=
  match d with
  | [] => None
  | (k', v) :: d' => if String.eqb k k' then Some v else dict_get d' k
  end.

Fixpoint dict_set {V : Type} (d : dict V) (k : string) (v : V) : dict V :=
  match d with
  | [] => [(k, v)]
  | (k', v') :: d' =>
      if String.eqb k k' then (k', v) :: d' else (k', v') :: dict_set d' k v
  end.

(** [d.update(other)] *)
Definition dict_update {V : Type} (d other : dict V) : dict V :=
  fold_left (fun acc kv => dict_set acc (fst kv) (snd kv)) other d.


(** ** Syntax trees

    The nodes [ast.parse] builds.  Python's node classes are dynamically
    typed, so one type holds expressions, operators, contexts and
    [keyword]s alike; the fields are in the order of the class's
    [_fields].  [Other cls children] is a node of any class that has no
    constructor of its own here ([Compare], [BoolOp], [IfExp], [Dict],
    [Starred], [comprehension], [arguments], ...), with its child nodes
    in field order. *)
Inductive node : Type :=
| Expression (body : node)
| BinOp (left op right : node)
| UnaryOp (op operand : node)
| Constant (v : value)
| Name (id : string) (ctx : node)
| Call (func : node) (args : list node) (keywords : list node)
| Tuple (elts : list node) (ctx : node)
| List (elts : list node) (ctx : node)
| keyword (arg : option string) (v : node)
| Load | Store | Del
| Add | Sub | Mult | Div | FloorDiv | Mod | Pow
| UAdd | USub
| NamedExpr (target v : node)
| Attribute (v : node) (attr : string) (ctx : node)
| Subscript (v slice ctx : node)
| Lambda (args body : node)
| ListComp (elt : node) (generators : list node)
| SetComp (elt : node) (generators : list node)
| DictComp (key v : node) (generators : list node)
| GeneratorExp (elt : node) (generators : list node)
| Other (cls : string) (children : list node).

(** [type(node).__name__] *)
Definition type_name (n : node) : string :=
  match n with
  | Expression _ => "Expression"
  | BinOp _ _ _ => "BinOp"
  | UnaryOp _ _ => "UnaryOp"
  | Constant _ => "Constant"
  | Name _ _ => "Name"
  | Call _ _ _ => "Call"
  | Tuple _ _ => "Tuple"
  | List _ _ => "List"
  | keyword _ _ => "keyword"
  | Load => "Load" | Store => "Store" | Del => "Del"
  | Add => "Add" | Sub => "Sub" | Mult => "Mult" | Div => "Div"
  | FloorDiv => "FloorDiv" | Mod => "Mod" | Pow => "Pow"
  | UAdd => "UAdd" | USub => "USub"
  | NamedExpr _ _ => "NamedExpr"
  | Attribute _ _ _ => "Attribute"
  | Subscript _ _ _ => "Subscript"
  | Lambda _ _ => "Lambda"
  | ListComp _ _ => "ListComp"
  | SetComp _ _ => "SetComp"
  | DictComp _ _ _ => "DictComp"
  | GeneratorExp _ _ => "GeneratorExp"
  | Other cls _ => cls
  end.

(** [ast.iter_child_nodes(node)]: the fields that are nodes, and the
    nodes in the fields that are lists, in field order. *)
Definition iter_child_nodes (n : node) : list node :=
  match n with
  | Expression body => [body]
  | BinOp l op r => [l; op; r]
  | UnaryOp op operand => [op; operand]
  | Constant _ => []
  | Name _ ctx => [ctx]
  | Call func args keywords => func :: args ++ keywords
  | Tuple elts ctx => elts ++ [ctx]
  | List elts ctx => elts ++ [ctx]
  | keyword _ v => [v]
  | NamedExpr target v => [target; v]
  | Attribute v _ ctx => [v; ctx]
  | Subscript v slice ctx => [v; slice; ctx]
  | Lambda args body => [args; body]
  | ListComp elt generators => elt :: generators
  | SetComp elt generators => elt :: generators
  | DictComp key v generators => key :: v :: generators
  | GeneratorExp elt generators => elt :: generators
  | Other _ children => children
  | _ => []
  end.

(** The node classes a class tuple may list. *)
Inductive node_class : Type :=
| ast_Expression | ast_BinOp | ast_UnaryOp | ast_Num | ast_Constant
| ast_Name | ast_Load
| ast_Add | ast_Sub | ast_Mult | ast_Div | ast_FloorDiv | ast_Mod | ast_Pow
| ast_UAdd | ast_USub
| ast_Call | ast_Tuple | ast_List.

(** Whether a constant is one [ast.Num] stands for: [ast.Num] is the
    deprecated alias of [ast.Constant] for [int], [float] and [complex]
    payloads ([bool] excluded). *)
Definition is_num (v : value) : bool :=
  match v with
  | VInt _ | VFloat _ | VComplex _ _ => true
  | _ => false
  end.

(** [isinstance(node, cls)] for one class. *)
Definition instance_of (n : node) (c : node_class) : bool :=
  match c, n with
  | ast_Expression, Expression _ => true
  | ast_BinOp, BinOp _ _ _ => true
  | ast_UnaryOp, UnaryOp _ _ => true
  | ast_Num, Constant v => is_num v
  | ast_Constant, Constant _ => true
  | ast_Name, Name _ _ => true
  | ast_Load, Load => true
  | ast_Add, Add => true
  | ast_Sub, Sub => true
  | ast_Mult, Mult => true
  | ast_Div, Div => true
  | ast_FloorDiv, FloorDiv => true
  | ast_Mod, Mod => true
  | ast_Pow, Pow => true
  | ast_UAdd, UAdd => true
  | ast_USub, USub => true
  | ast_Call, Call _ _ _ => true
  | ast_Tuple, Tuple _ _ => true
  | ast_List, List _ _ => true
  | _, _ => false
  end.

(** [isinstance(node, classes)] for a tuple of classes. *)
Definition isinstance (n : node) (classes : list node_class) : bool :=
  existsb (instance_of n) classes.

Definition ALLOWED_NODES : list node_class :=
  [ ast_Expression;
    ast_BinOp;
    ast_UnaryOp;
    ast_Num;
    ast_Constant;
    ast_Name;
    ast_Load;
    ast_Add; ast_Sub; ast_Mult; ast_Div; ast_FloorDiv; ast_Mod; ast_Pow;
    ast_UAdd; ast_USub;
    ast_Call;
    ast_Tuple;
    ast_List ].

Definition unsupported_element (n : node) : exn :=
  ValueError ("Unsupported expression element: " ++ type_name n)%string.

(** [SafeEvaluator._check_node]: the class test on the node, then the
    same on each child in turn.  The recursion is written out per
    constructor; [check_node_unfold] below shows it is the loop over
    [iter_child_nodes]. *)
Fixpoint _check_node (n : node) : result unit :=
  let check_all :=
    fix check_all (l : list node) : result unit :=
      match l with
      | [] => Ok tt
      | c :: l' => _check_node c ;;; check_all l'
      end in
  if negb (isinstance n ALLOWED_NODES) then Err (unsupported_element n)
  else
    match n with
    | Expression body => _check_node body ;;; Ok tt
    | BinOp l op r => _check_node l ;;; _check_node op ;;; _check_node r ;;; Ok tt
    | UnaryOp op operand => _check_node op ;;; _check_node operand ;;; Ok tt
    | Constant _ => Ok tt
    | Name _ ctx => _check_node ctx ;;; Ok tt
    | Call func args keywords =>
        _check_node func ;;; check_all args ;;; check_all keywords
    | Tuple elts ctx => check_all elts ;;; _check_node ctx ;;; Ok tt
    | List elts ctx => check_all elts ;;; _check_node ctx ;;; Ok tt
    | keyword _ v => _check_node v ;;; Ok tt
    | NamedExpr target v => _check_node target ;;; _check_node v ;;; Ok tt
    | Attribute v _ ctx => _check_node v ;;; _check_node ctx ;;; Ok tt
    | Subscript v slice ctx =>
        _check_node v ;;; _check_node slice ;;; _check_node ctx ;;; Ok tt
    | Lambda args body => _check_node args ;;; _check_node body ;;; Ok tt
    | ListComp elt generators => _check_node elt ;;; check_all generators
    | SetComp elt generators => _check_node elt ;;; check_all generators
    | DictComp key v generators =>
        _check_node key ;;; _check_node v ;;; check_all generators
    | GeneratorExp elt generators => _check_node elt ;;; check_all generators
    | Other _ children => check_all children
    | _ => Ok tt
    end.

(** The loop [for child in ...: self._check_node(child)]. *)
Fixpoint check_children (l : list node) : result unit :=
  match l with
  | [] => Ok tt
  | c :: l' => _check_node c ;;; check_children l'
  end.

(** The nodes of a tree in the order a pre-order walk visits them. *)
Fixpoint preorder (n : node) : list node :=
  let walk :=
    fix walk (l : list node) : list node :=
      match l with
      | [] => []
      | c :: l' => preorder c ++ walk l'
      end in
  n ::
  match n with
  | Expression body => preorder body
  | BinOp l op r => preorder l ++ preorder op ++ preorder r
  | UnaryOp op operand => preorder op ++ preorder operand
  | Name _ ctx => preorder ctx
  | Call func args keywords => preorder func ++ walk args ++ walk keywords
  | Tuple elts ctx => walk elts ++ preorder ctx
  | List elts ctx => walk elts ++ preorder ctx
  | keyword _ v => preorder v
  | NamedExpr target v => preorder target ++ preorder v
  | Attribute v _ ctx => preorder v ++ preorder ctx
  | Subscript v slice ctx => preorder v ++ preorder slice ++ preorder ctx
  | Lambda args body => preorder args ++ preorder body
  | ListComp elt generators => preorder elt ++ walk generators
  | SetComp elt generators => preorder elt ++ walk generators
  | DictComp key v generators => preorder key ++ preorder v ++ walk generators
  | GeneratorExp elt generators => preorder elt ++ walk generators
  | Other _ children => walk children
  | _ => []
  end.

Fixpoint preorder_all (l : list node) : list node :=
  match l with
  | [] => []
  | c :: l' => preorder c ++ preorder_all l'
  end.

(** ** Numbers

    [bool] is a subclass of [int]: in arithmetic [True] is 1 and [False]
    is 0. *)
Inductive number : Type :=
| NInt (z : Z)
| NFloat (f : float)
| NComplex (re im : float).

Definition as_number (v : value) : option number :=
  match v with
  | VBool b => Some (NInt (Z.b2z b))
  | VInt z => Some (NInt z)
  | VFloat f => Some (NFloat f)
  | VComplex re im => Some (NComplex re im)
  | _ => None
  end.

Definition Z2SF (z : Z) : spec_float :=
  match z with
  | Z0 => S754_zero false
  | Zpos p => S754_finite false p 0
  | Zneg p => S754_finite true p 0
  end.

(** [float(z)] for an [int]: the nearest binary64 number (ties to even);
    [OverflowError] when that is beyond the largest finite one. *)
Definition int_to_float (z : Z) : result float :=
  match binary_normalize prec emax z 0 false with
  | S754_infinity _ => Err (Builtin COverflowError)
  | sf => Ok (SF2Prim sf)
  end.

(** [a / b] on [int]s: the correctly rounded quotient. *)
Definition int_true_divide (a b : Z) : result value :=
  if b =? 0 then Err (Builtin CZeroDivisionError)
  else
    match SFdiv prec emax (Z2SF a) (Z2SF b) with
    | S754_infinity _ => Err (Builtin COverflowError)
    | sf => Ok (VFloat (SF2Prim sf))
    end.

Definition float_is_zero (f : float) : bool := PrimFloat.eqb f 0%float.

(** Exact comparison [z < f] and [f < z] of an [int] with a [float]. *)
Definition int_lt_float (z : Z) (f : float) : bool :=
  match Prim2SF f with
  | S754_zero _ => z <? 0
  | S754_infinity s => negb s
  | S754_nan => false
  | S754_finite s m e =>
      let fm := if s then Z.neg m else Z.pos m in
      if 0 <=? e then z <? fm * 2 ^ e else z * 2 ^ (- e) <? fm
  end.

Definition float_lt_int (f : float) (z : Z) : bool :=
  match Prim2SF f with
  | S754_zero _ => 0 <? z
  | S754_infinity s => s
  | S754_nan => false
  | S754_finite s m e =>
      let fm := if s then Z.neg m else Z.pos m in
      if 0 <=? e then fm * 2 ^ e <? z else fm <? z * 2 ^ (- e)
  end.

Fixpoint str_repeat (n : nat) (s : string) : string :=
  match n with
  | O => EmptyString
  | S n' => (s ++ str_repeat n' s)%string
  end.

Fixpoint list_repeat {A : Type} (n : nat) (l : list A) : list A :=
  match n with
  | O => []
  | S n' => l ++ list_repeat n' l
  end.

(** The repetition count of [seq * n]: it must fit [Py_ssize_t] (64-bit
    build); a negative count is an empty repetition.  Memory is taken
    to be unbounded. *)
Definition repeat_count (n : Z) : result nat :=
  if (n <? - 2 ^ 63) || (2 ^ 63 - 1 <? n) then Err (Builtin COverflowError)
  else Ok (Z.to_nat n).

Inductive cmpop : Type := Py_LT | Py_GT.

(** ** The evaluator *)

(** What the development takes from CPython and the C library as
    given. *)
Record runtime : Type := mkRuntime {
  (** [ast.parse(expr, mode='eval')]: the tree, or the text of the
      [SyntaxError]. *)
  ast_parse : string -> string + node;
  (** [float] floor division and remainder by a non-zero divisor (C
      [fmod] and [floor]), and [float] power (C [pow], which CPython
      wraps: the result may be complex or an exception). *)
  float_floor_divide : float -> float -> float;
  float_remainder : float -> float -> float;
  float_power : float -> float -> result value;
  (** Arithmetic with a [complex] operand; the first argument is the
      operator node. *)
  complex_arith : node -> number -> number -> result value;
  (** [fmt % arg] on a [str]. *)
  str_format : string -> value -> result value;
  (** [a < b] and [a > b] where an operand is not an [int], [bool] or
      [float]. *)
  rich_compare : cmpop -> value -> value -> result bool;
  (** A call of a [math] or [cmath] function other than
      [math.factorial]. *)
  module_call : callable -> list value -> dict value -> result value;
  (** [str(v)] of a callable or a [complex]. *)
  str_of : value -> string
}.

Section Evaluator.

Variable rt : runtime.

Definition type_error {A : Type} : result A := Err (Builtin CTypeError).

(** Both operands as [float]s, the left one converted first. *)
Definition as_floats (a b : number) (k : float -> float -> result value)
  : result value :=
  match a, b with
  | NInt x, NInt y => x' <- int_to_float x ;; y' <- int_to_float y ;; k x' y'
  | NInt x, NFloat y => x' <- int_to_float x ;; k x' y
  | NFloat x, NInt y => y' <- int_to_float y ;; k x y'
  | NFloat x, NFloat y => k x y
  | _, _ => type_error
  end.

(** An arithmetic operator on two numbers: on two [int]s [on_int]; with
    a [complex] operand [complex_arith]; otherwise on [float]s. *)
Definition number_op (op : node) (on_int : Z -> Z -> result value)
    (on_float : float -> float -> result value) (a b : number)
  : result value :=
  match a, b with
  | NInt x, NInt y => on_int x y
  | NComplex _ _, _ | _, NComplex _ _ => complex_arith rt op a b
  | _, _ => as_floats a b on_float
  end.

(** [left + right] *)
Definition py_add (l r : value) : result value :=
  match as_number l, as_number r with
  | Some a, Some b =>
      number_op Add (fun x y => Ok (VInt (x + y)))
        (fun x y => Ok (VFloat (x + y)%float)) a b
  | _, _ =>
      match l, r with
      | VStr s, VStr t => Ok (VStr (s ++ t)%string)
      | VTuple s, VTuple t => Ok (VTuple (s ++ t))
      | VList s, VList t => Ok (VList (s ++ t))
      | _, _ => type_error
      end
  end.

(** [left - right] *)
Definition py_sub (l r : value) : result value :=
  match as_number l, as_number r with
  | Some a, Some b =>
      number_op Sub (fun x y => Ok (VInt (x - y)))
        (fun x y => Ok (VFloat (x - y)%float)) a b
  | _, _ => type_error
  end.

Definition sequence_repeat (s : value) (n : Z) : result value :=
  match s with
  | VStr t => c <- repeat_count n ;; Ok (VStr (str_repeat c t))
  | VTuple t => c <- repeat_count n ;; Ok (VTuple (list_repeat c t))
  | VList t => c <- repeat_count n ;; Ok (VList (list_repeat c t))
  | _ => type_error
  end.

(** [left * right] *)
Definition py_mul (l r : value) : result value :=
  match as_number l, as_number r with
  | Some a, Some b =>
      number_op Mult (fun x y => Ok (VInt (x * y)))
        (fun x y => Ok (VFloat (x * y)%float)) a b
  | None, Some (NInt n) => sequence_repeat l n
  | Some (NInt n), None => sequence_repeat r n
  | _, _ => type_error
  end.

(** [left / right] *)
Definition py_truediv (l r : value) : result value :=
  match as_number l, as_number r with
  | Some a, Some b =>
      number_op Div int_true_divide
        (fun x y =>
           if float_is_zero y then Err (Builtin CZeroDivisionError)
           else Ok (VFloat (x / y)%float)) a b
  | _, _ => type_error
  end.

(** [left // right] *)
Definition py_floordiv (l r : value) : result value :=
  match as_number l, as_number r with
  | Some a, Some b =>
      number_op FloorDiv
        (fun x y =>
           if y =? 0 then Err (Builtin CZeroDivisionError)
           else Ok (VInt (x / y)))
        (fun x y =>
           if float_is_zero y then Err (Builtin CZeroDivisionError)
           else Ok (VFloat (float_floor_divide rt x y))) a b
  | _, _ => type_error
  end.

(** [left % right] *)
Definition py_mod (l r : value) : result value :=
  match l with
  | VStr fmt => str_format rt fmt r
  | _ =>
      match as_number l, as_number r with
      | Some a, Some b =>
          number_op Mod
            (fun x y =>
               if y =? 0 then Err (Builtin CZeroDivisionError)
               else Ok (VInt (x mod y)))
            (fun x y =>
               if float_is_zero y then Err (Builtin CZeroDivisionError)
               else Ok (VFloat (float_remainder rt x y))) a b
      | _, _ => type_error
      end
  end.

(** [left ** right]: an [int] to a negative [int] power is computed on
    [float]s. *)
Definition py_pow (l r : value) : result value :=
  match as_number l, as_number r with
  | Some a, Some b =>
      number_op Pow
        (fun x y =>
           if 0 <=? y then Ok (VInt (x ^ y))
           else as_floats (NInt x) (NInt y) (float_power rt))
        (float_power rt) a b
  | _, _ => type_error
  end.

(** [+operand] *)
Definition py_pos (v : value) : result value :=
  match as_number v with
  | Some (NInt z) => Ok (VInt z)
  | Some (NFloat f) => Ok (VFloat f)
  | Some (NComplex re im) => Ok (VComplex re im)
  | None => type_error
  end.

(** [-operand] *)
Definition py_neg (v : value) : result value :=
  match as_number v with
  | Some (NInt z) => Ok (VInt (- z))
  | Some (NFloat f) => Ok (VFloat (- f)%float)
  | Some (NComplex re im) => Ok (VComplex (- re)%float (- im)%float)
  | None => type_error
  end.

(** [a < b] ([Py_LT]) or [a > b] ([Py_GT]) as a truth value. *)
Definition py_compare (c : cmpop) (a b : value) : result bool :=
  match as_number a, as_number b with
  | Some (NInt x), Some (NInt y) =>
      Ok (match c with Py_LT => x <? y | Py_GT => y <? x end)
  | Some (NFloat x), Some (NFloat y) =>
      Ok (match c with Py_LT => PrimFloat.ltb x y | Py_GT => PrimFloat.ltb y x end)
  | Some (NInt x), Some (NFloat y) =>
      Ok (match c with Py_LT => int_lt_float x y | Py_GT => float_lt_int y x end)
  | Some (NFloat x), Some (NInt y) =>
      Ok (match c with Py_LT => float_lt_int x y | Py_GT => int_lt_float y x end)
  | _, _ => rich_compare rt c a b
  end.

(** The builtin [sum(xs)]: [0 + x1 + x2 + ...], left to right. *)
Definition py_sum (xs : list value) : result value :=
  fold_left (fun acc x => a <- acc ;; py_add a x) xs (Ok (VInt 0)).

(** The builtins [min(xs)] and [max(xs)] on one iterable: the first
    element, replaced by each later one that compares below (above)
    it; [ValueError] on an empty iterable. *)
Definition py_extremum (c : cmpop) (xs : list value) : result value :=
  match xs with
  | [] => Err (Builtin CValueError)
  | x :: rest =>
      fold_left
        (fun acc item =>
           m <- acc ;; b <- py_compare c item m ;; Ok (if b then item else m))
        rest (Ok x)
  end.

Definition py_len (xs : list value) : value := VInt (Z.of_nat (List.length xs)).

(** [math.factorial(x)]: exactly one positional argument that is an
    [int] (or [bool]), not negative, and at most [LONG_MAX]. *)
Definition factorial_of (n : Z) : result value :=
  if n <? 0 then Err (Builtin CValueError)
  else if 2 ^ 63 - 1 <? n then Err (Builtin COverflowError)
  else Ok (VInt (Z.of_nat (fact (Z.to_nat n)))).

Definition math_factorial (args : list value) (kwargs : dict value)
  : result value :=
  match kwargs, args with
  | [], [VInt n] => factorial_of n
  | [], [VBool b] => factorial_of (Z.b2z b)
  | _, _ => type_error
  end.

(** *** The whitelisted names *)

Definition MATH_FUNCS : dict value :=
  let getattr_math (name : string) : option value := Some (VFunc (Math name)) in
  let entries : list (string * option value) :=
    [ ("sin", Some (VFunc (Math "sin")));
      ("cos", Some (VFunc (Math "cos")));
      ("tan", Some (VFunc (Math "tan")));
      ("asin", Some (VFunc (Math "asin")));
      ("acos", Some (VFunc (Math "acos")));
      ("atan", Some (VFunc (Math "atan")));
      ("log", Some (VFunc (Math "log")));
      ("ln", Some (VFunc (Math "log")));
      ("log10", Some (VFunc (Math "log10")));
      ("sqrt", Some (VFunc (Math "sqrt")));
      ("exp", Some (VFunc (Math "exp")));
      ("factorial", Some (VFunc (Math "factorial")));
      ("degrees", Some (VFunc (Math "degrees")));
      ("radians", Some (VFunc (Math "radians")));
      ("comb", getattr_math "comb");
      ("perm", getattr_math "perm");
      ("gcd", Some (VFunc (Math "gcd")));
      ("lcm", getattr_math "lcm");
      ("hypot", Some (VFunc (Math "hypot"))) ] in
  flat_map (fun kv => match snd kv with
                      | Some v => [(fst kv, v)]
                      | None => []
                      end) entries.

Definition C_MATH_FUNCS : dict value :=
  [ ("c_sin", VFunc (CMath "sin"));
    ("c_cos", VFunc (CMath "cos"));
    ("c_tan", VFunc (CMath "tan"));
    ("c_log", VFunc (CMath "log"));
    ("c_sqrt", VFunc (CMath "sqrt"));
    ("c_exp", VFunc (CMath "exp"));
    ("c_phase", VFunc (CMath "phase"));
    ("c_polar", VFunc (CMath "polar"));
    ("c_rect", VFunc (CMath "rect")) ].

Definition UTIL_FUNCS : dict value :=
  [ ("avg", VFunc lambda_avg);
    ("sum", VFunc lambda_sum);
    ("min", VFunc lambda_min);
    ("max", VFunc lambda_max);
    ("pct", VFunc lambda_pct) ].

Definition CONSTANTS : dict value :=
  [ ("pi", VFloat 0x1.921fb54442d18p+1%float);
    ("e", VFloat 0x1.5bf0a8b145769p+1%float);
    ("tau", VFloat 0x1.921fb54442d18p+2%float);
    ("inf", VFloat infinity);
    ("nan", VFloat nan) ].

Definition ALLOWED_GLOBALS : dict value :=
  dict_update (dict_update (dict_update (dict_update [] MATH_FUNCS)
    C_MATH_FUNCS) UTIL_FUNCS) CONSTANTS.

(** The bodies of the [UTIL_FUNCS] lambdas. *)
Definition avg (xs : list value) : result value :=
  match xs with
  | [] => Ok (VFloat nan)
  | _ => s <- py_sum xs ;; py_truediv s (py_len xs)
  end.

Definition pct (a b : value) : result value :=
  p <- py_mul a b ;; py_truediv p (VFloat 100%float).

(** Binding the arguments of a call to the two parameters [a], [b] of
    [pct]: positional ones first, then by name; any mismatch is a
    [TypeError]. *)
Definition bind_pct (args : list value) (kwargs : dict value)
  : result (value * value) :=
  match args, kwargs with
  | [a; b], [] => Ok (a, b)
  | [a], [(k, b)] => if String.eqb k "b" then Ok (a, b) else type_error
  | [], [(k1, v1); (k2, v2)] =>
      if String.eqb k1 "a" && String.eqb k2 "b" then Ok (v1, v2)
      else if String.eqb k1 "b" && String.eqb k2 "a" then Ok (v2, v1)
      else type_error
  | _, _ => type_error
  end.

(** The call of a callable value on positional arguments [args] and
    keyword arguments [kwargs]. *)
Definition call (f : callable) (args : list value) (kwargs : dict value)
  : result value :=
  match f with
  | Math "factorial" => math_factorial args kwargs
  | Math _ | CMath _ => module_call rt f args kwargs
  | lambda_avg => match kwargs with [] => avg args | _ => type_error end
  | lambda_sum => match kwargs with [] => py_sum args | _ => type_error end
  | lambda_min =>
      match kwargs with [] => py_extremum Py_LT args | _ => type_error end
  | lambda_max =>
      match kwargs with [] => py_extremum Py_GT args | _ => type_error end
  | lambda_pct => ab <- bind_pct args kwargs ;; pct (fst ab) (snd ab)
  end.

(** [callable(v)] *)
Definition is_callable (v : value) : bool :=
  match v with
  | VFunc _ => true
  | _ => false
  end.

(** The keyword dictionary of a call: a key that is not a string
    ([**mapping] syntax leaves [None]) makes the call a [TypeError]. *)
Fixpoint kwargs_dict (kws : list (option string * value)) (acc : dict value)
  : result (dict value) :=
  match kws with
  | [] => Ok acc
  | (Some k, v) :: kws' => kwargs_dict kws' (dict_set acc k v)
  | (None, _) :: _ => type_error
  end.

(** *** [SafeEvaluator._eval] *)

Fixpoint _eval (vars : dict value) (n : node) {struct n} : result value :=
  let eval_all :=
    fix eval_all (l : list node) : result (list value) :=
      match l with
      | [] => Ok []
      | x :: l' => v <- _eval vars x ;; vs <- eval_all l' ;; Ok (v :: vs)
      end in
  let eval_keywords :=
    fix eval_keywords (l : list node) : result (list (option string * value)) :=
      match l with
      | [] => Ok []
      | keyword arg x :: l' =>
          v <- _eval vars x ;; kvs <- eval_keywords l' ;; Ok ((arg, v) :: kvs)
      | _ :: _ => Err (Builtin CAttributeError)
      end in
  match n with
  | Constant v => Ok v
  | Name name _ =>
      match dict_get vars name with
      | Some v => Ok v
      | None =>
          match dict_get ALLOWED_GLOBALS name with
          | Some v => Ok v
          | None => Err (NameError ("Unknown name: " ++ name)%string)
          end
      end
  | BinOp l op r =>
      left <- _eval vars l ;;
      right <- _eval vars r ;;
      match op with
      | Add => py_add left right
      | Sub => py_sub left right
      | Mult => py_mul left right
      | Div => py_truediv left right
      | FloorDiv => py_floordiv left right
      | Mod => py_mod left right
      | Pow => py_pow left right
      | _ => Err (ValueError "Unsupported operator")
      end
  | UnaryOp op operand =>
      v <- _eval vars operand ;;
      match op with
      | UAdd => py_pos v
      | USub => py_neg v
      | _ => Err (ValueError "Unsupported unary operator")
      end
  | Tuple elts _ => vs <- eval_all elts ;; Ok (VTuple vs)
  | List elts _ => vs <- eval_all elts ;; Ok (VList vs)
  | Call func args keywords =>
      f <- _eval vars func ;;
      match f with
      | VFunc c =>
          a <- eval_all args ;;
          kvs <- eval_keywords keywords ;;
          kwargs <- kwargs_dict kvs [] ;;
          call c a kwargs
      | _ => Err (ValueError "Attempted to call non-callable")
      end
  | _ => Err (ValueError ("Unsupported node: " ++ type_name n)%string)
  end.

(** The list comprehension [[self._eval(a) for a in l]]. *)
Fixpoint eval_list (vars : dict value) (l : list node) : result (list value) :=
  match l with
  | [] => Ok []
  | x :: l' => v <- _eval vars x ;; vs <- eval_list vars l' ;; Ok (v :: vs)
  end.

(** *** [SafeEvaluator.eval_expr] *)

Definition eval_expr (vars : dict value) (expr : string) : result value :=
  match ast_parse rt expr with
  | inl e => Err (ValueError ("Syntax error: " ++ e)%string)
  | inr tree =>
      _check_node tree ;;;
      match tree with
      | Expression body => _eval vars body
      | _ => Err (Builtin CAttributeError)
      end
  end.

(** ** The session: [Calculator] *)

(** [EvalResult]; [val] is the field [value]. *)
Record EvalResult : Type := mkEvalResult {
  expr : string;
  val : value;
  is_assignment : bool
}.

(** A [Calculator]: the variables of its evaluator and its history. *)
Record Calculator : Type := mkCalculator {
  vars : dict value;
  history : list EvalResult
}.

(** [Calculator()] *)
Definition new_calculator : Calculator :=
  {| vars := []; history := [] |}.

(** A method: from the session to what it returns or raises, and the
    session as it leaves it. *)
Definition method (A : Type) : Type := Calculator -> result A * Calculator.

Definition ret {A : Type} (a : A) : method A := fun c => (Ok a, c).

Definition raise {A : Type} (e : exn) : method A := fun c => (Err e, c).

Definition mbind {A B : Type} (m : method A) (k : A -> method B) : method B :=
  fun c =>
    match m c with
    | (Ok a, c') => k a c'
    | (Err e, c') => (Err e, c')
    end.

Notation "x <-- m ;; k" := (mbind m (fun x => k))
  (at level 61, m at next level, right associativity).

(** [self.evaluator.eval_expr(expr)] *)
Definition evaluator_eval_expr (e : string) : method value :=
  fun c => (eval_expr (vars c) e, c).

(** [self.evaluator.vars[name] = value] *)
Definition set_var (name : string) (v : value) : method unit :=
  fun c => (Ok tt, {| vars := dict_set (vars c) name v; history := history c |}).

(** [self.history.append(res)] *)
Definition history_append (res : EvalResult) : method unit :=
  fun c => (Ok tt, {| vars := vars c; history := history c ++ [res] |}).

(** Whitespace as [str.strip] sees it, on ASCII text. *)
Definition is_space (a : ascii) : bool :=
  let n := nat_of_ascii a in
  ((9 <=? n) && (n <=? 13) || (28 <=? n) && (n <=? 32))%nat.

Fixpoint lstrip (s : string) : string :=
  match s with
  | String a s' => if is_space a then lstrip s' else s
  | EmptyString => EmptyString
  end.

Fixpoint rstrip (s : string) : string :=
  match s with
  | String a s' =>
      match rstrip s' with
      | EmptyString => if is_space a then EmptyString else String a EmptyString
      | t => String a t
      end
  | EmptyString => EmptyString
  end.

(** [s.strip()] *)
Definition strip (s : string) : string := rstrip (lstrip s).

Definition is_id_start (a : ascii) : bool :=
  let n := nat_of_ascii a in
  ((65 <=? n) && (n <=? 90) || (97 <=? n) && (n <=? 122) || (n =? 95))%nat.

Definition is_digit (a : ascii) : bool :=
  let n := nat_of_ascii a in ((48 <=? n) && (n <=? 57))%nat.

Fixpoint all_chars (p : ascii -> bool) (s : string) : bool :=
  match s with
  | String a s' => p a && all_chars p s'
  | EmptyString => true
  end.

(** [s.isidentifier()], on ASCII text. *)
Definition isidentifier (s : string) : bool :=
  match s with
  | String a s' => is_id_start a && all_chars (fun c => is_id_start c || is_digit c) s'
  | EmptyString => false
  end.

(** [Calculator.assign] *)
Definition assign (name e : string) : method EvalResult :=
  let name := strip name in
  if negb (isidentifier name) then raise (ValueError "Invalid variable name")
  else
    v <-- evaluator_eval_expr e ;;
    _ <-- set_var name v ;;
    let res := {| expr := (name ++ " = " ++ e)%string; val := v;
                  is_assignment := true |} in
    _ <-- history_append res ;;
    ret res.

(** [Calculator.evaluate] *)
Definition evaluate (e : string) : method EvalResult :=
  v <-- evaluator_eval_expr e ;;
  let res := {| expr := e; val := v; is_assignment := false |} in
  _ <-- history_append res ;;
  ret res.

(** *** Saving and loading *)

(** A JSON value as [json.dump] writes it and [json.load] reads it
    back.  The text of a file is not modelled: a file holds the
    document ([json.load] of what [json.dump] wrote is that document,
    [float]s included, which are written with [repr]). *)
Inductive json : Type :=
| JNull
| JBool (b : bool)
| JInt (z : Z)
| JFloat (f : float)
| JStr (s : string)
| JArray (items : list json).

(** The JSON form of a value under [json.dump(..., default=str)]: a
    [tuple] and a [list] are both arrays, and what JSON has no form
    for is written as its [str]. *)
Fixpoint to_json (v : value) : json :=
  match v with
  | VNone => JNull
  | VBool b => JBool b
  | VInt z => JInt z
  | VFloat f => JFloat f
  | VStr s => JStr s
  | VTuple l => JArray (map to_json l)
  | VList l => JArray (map to_json l)
  | VComplex _ _ | VFunc _ => JStr (str_of rt v)
  end.

(** The Python value [json.load] builds. *)
Fixpoint of_json (j : json) : value :=
  match j with
  | JNull => VNone
  | JBool b => VBool b
  | JInt z => VInt z
  | JFloat f => VFloat f
  | JStr s => VStr s
  | JArray l => VList (map of_json l)
  end.

(** A session file: an object whose key ['variables'], when present,
    holds an object and whose key ['history'], when present, holds an
    array of [[expr, value, is_assignment]] arrays. *)
Record document : Type := mkDocument {
  doc_variables : option (dict json);
  doc_history : option (list (string * json * bool))
}.

(** The files, by path. *)
Definition files : Type := dict document.

(** [Calculator.save]: the file at [path] after the call. *)
Definition save (path : string) (c : Calculator) (fs : files) : files :=
  let data :=
    {| doc_variables := Some (map (fun kv => (fst kv, to_json (snd kv))) (vars c));
       doc_history :=
         Some (map (fun h => (expr h, to_json (val h), is_assignment h))
                   (history c)) |} in
  dict_set fs path data.

Definition get_default {A : Type} (o : option A) (default : A) : A :=
  match o with
  | Some a => a
  | None => default
  end.

(** [Calculator.load]; a missing file is an [OSError].  An object read
    from JSON keeps one entry per key. *)
Definition load (path : string) (fs : files) : method unit :=
  fun c =>
    match dict_get fs path with
    | None => (Err (Builtin COSError), c)
    | Some data =>
        let c1 :=
          {| vars := dict_update []
                       (map (fun kv => (fst kv, of_json (snd kv)))
                            (get_default (doc_variables data) []));
             history := history c |} in
        let c2 :=
          {| vars := vars c1;
             history :=
               map (fun evb =>
                      match evb with
                      | (e, v, b) =>
                          {| expr := e; val := of_json v; is_assignment := b |}
                      end)
                   (get_default (doc_history data) []) |} in
        (Ok tt, c2)
    end.

(** [Calculator.clear] *)
Definition clear : method unit :=
  fun _ => (Ok tt, {| vars := []; history := [] |}).

End Evaluator.

Arguments EvalResult : clear implicits.
Arguments Calculator : clear implicits.

(** ** [ast.parse] on the calculator's grammar

    [parse_calc] reads the part of Python's expression grammar the
    calculator is meant for: sums, terms, factors, powers, calls with
    positional and keyword arguments, names, decimal literals, quoted
    strings without escapes, parenthesised expressions, tuples and
    lists.  It follows the grammar of the language reference
    ([sum], [term], [factor], [power], [primary], [atom]); where it
    answers [Some tree], [tree] is what [ast.parse(text, mode='eval')]
    returns, and it answers [None] on any other text (malformed or
    outside this part of the grammar). *)

Inductive token : Type :=
| TInt (z : Z)
| TFloat (f : float)
| TName (s : string)
| TConst (v : value)
| TString (s : string)
| TPlus | TMinus | TStar | TDoubleStar | TSlash | TDoubleSlash | TPercent
| TLParen | TRParen | TLBracket | TRBracket | TComma | TEqual.

Definition is_digit_char (a : ascii) : bool :=
  let n := nat_of_ascii a in ((48 <=? n) && (n <=? 57))%nat.

Definition is_name_start (a : ascii) : bool :=
  let n := nat_of_ascii a in
  ((65 <=? n) && (n <=? 90) || (97 <=? n) && (n <=? 122) || (n =? 95))%nat.

Definition is_name_char (a : ascii) : bool :=
  is_name_start a || is_digit_char a.

(** The longest prefix of characters satisfying [p], and the rest. *)
Fixpoint span (p : ascii -> bool) (s : string) : string * string :=
  match s with
  | String a s' =>
      if p a then let (x, r) := span p s' in (String a x, r)
      else (EmptyString, s)
  | EmptyString => (EmptyString, EmptyString)
  end.

Fixpoint digits_value (s : string) (acc : Z) : Z :=
  match s with
  | String a s' => digits_value s' (10 * acc + Z.of_nat (nat_of_ascii a - 48))
  | EmptyString => acc
  end.

Definition keywords : list string :=
  [ "and"; "as"; "assert"; "async"; "await"; "break"; "class"; "continue";
    "def"; "del"; "elif"; "else"; "except"; "finally"; "for"; "from";
    "global"; "if"; "import"; "in"; "is"; "lambda"; "nonlocal"; "not"; "or";
    "pass"; "raise"; "return"; "try"; "while"; "with"; "yield" ].

Definition name_token (s : string) : option token :=
  if String.eqb s "True" then Some (TConst (VBool true))
  else if String.eqb s "False" then Some (TConst (VBool false))
  else if String.eqb s "None" then Some (TConst VNone)
  else if existsb (String.eqb s) keywords then None
  else Some (TName s).

(** A decimal literal [ds] or [ds.fs]: an [int], or the [float] nearest
    to the decimal fraction. *)
Definition number_token (ds fs : string) : token :=
  match fs with
  | EmptyString => TInt (digits_value ds 0)
  | _ =>
      TFloat (SF2Prim (SFdiv prec emax
                (Z2SF (digits_value (ds ++ fs)%string 0))
                (Z2SF (10 ^ Z.of_nat (String.length fs)))))
  end.

Definition starts_with (p : ascii -> bool) (s : string) : bool :=
  match s with
  | String a _ => p a
  | EmptyString => false
  end.

Definition is_dot (a : ascii) : bool := (nat_of_ascii a =? 46)%nat.

Definition is_plain_char (q : ascii) (a : ascii) : bool :=
  let n := nat_of_ascii a in
  ((32 <=? n) && (n <=? 126) && negb (n =? 92) && negb (n =? nat_of_ascii q))%nat.

Fixpoint tokenize (fuel : nat) (s : string) : option (list token) :=
  match fuel with
  | O => None
  | S fuel' =>
      let more (t : token) (rest : string) :=
        option_map (cons t) (tokenize fuel' rest) in
      match s with
      | EmptyString => Some []
      | String a s' =>
          if is_digit_char a then
            let (ds, r) := span is_digit_char s in
            if (nat_of_ascii a =? 48)%nat && negb (String.eqb ds "0") then None
            else
              match r with
              | String d r' =>
                  if is_dot d then
                    let (fs, r'') := span is_digit_char r' in
                    if String.eqb fs EmptyString || starts_with is_name_start r''
                       || starts_with is_dot r'' then None
                    else more (number_token ds fs) r''
                  else if is_name_start d then None
                  else more (number_token ds EmptyString) r
              | EmptyString => more (number_token ds EmptyString) r
              end
          else if is_name_start a then
            let (x, r) := span is_name_char s in
            match name_token x with
            | Some t => more t r
            | None => None
            end
          else
            match a with
            | " "%char | "009"%char => tokenize fuel' s'
            | "'"%char | "034"%char =>
                let (body, r) := span (is_plain_char a) s' in
                match r with
                | String q r' => if Ascii.eqb q a then more (TString body) r' else None
                | EmptyString => None
                end
            | "+"%char => more TPlus s'
            | "-"%char => more TMinus s'
            | "%"%char => more TPercent s'
            | "("%char => more TLParen s'
            | ")"%char => more TRParen s'
            | "["%char => more TLBracket s'
            | "]"%char => more TRBracket s'
            | ","%char => more TComma s'
            | "="%char => more TEqual s'
            | "*"%char =>
                match s' with
                | String "*"%char r => more TDoubleStar r
                | _ => more TStar s'
                end
            | "/"%char =>
                match s' with
                | String "/"%char r => more TDoubleSlash r
                | _ => more TSlash s'
                end
            | _ => None
            end
      end
  end.

Definition parsed : Type := option (node * list token).

Definition additive (t : token) : option node :=
  match t with
  | TPlus => Some Add
  | TMinus => Some Sub
  | _ => None
  end.

Definition multiplicative (t : token) : option node :=
  match t with
  | TStar => Some Mult
  | TSlash => Some Div
  | TDoubleSlash => Some FloorDiv
  | TPercent => Some Mod
  | _ => None
  end.

Fixpoint p_sum (n : nat) (ts : list token) : parsed :=
  match n with
  | O => None
  | S n =>
      match p_term n ts with
      | Some (l, ts') => p_sum_rest n l ts'
      | None => None
      end
  end

(** [sum: sum ('+'|'-') term], read as a loop: left-associative. *)
with p_sum_rest (n : nat) (lhs : node) (ts : list token) : parsed :=
  match n with
  | O => None
  | S n =>
      match ts with
      | t :: ts' =>
          match additive t with
          | Some op =>
              match p_term n ts' with
              | Some (r, ts'') => p_sum_rest n (BinOp lhs op r) ts''
              | None => None
              end
          | None => Some (lhs, ts)
          end
      | [] => Some (lhs, ts)
      end
  end

with p_term (n : nat) (ts : list token) : parsed :=
  match n with
  | O => None
  | S n =>
      match p_factor n ts with
      | Some (l, ts') => p_term_rest n l ts'
      | None => None
      end
  end

(** [term: term ('*'|'/'|'//'|'%') factor]: left-associative. *)
with p_term_rest (n : nat) (lhs : node) (ts : list token) : parsed :=
  match n with
  | O => None
  | S n =>
      match ts with
      | t :: ts' =>
          match multiplicative t with
          | Some op =>
              match p_factor n ts' with
              | Some (r, ts'') => p_term_rest n (BinOp lhs op r) ts''
              | None => None
              end
          | None => Some (lhs, ts)
          end
      | [] => Some (lhs, ts)
      end
  end

(** [factor: '+' factor | '-' factor | power] *)
with p_factor (n : nat) (ts : list token) : parsed :=
  match n with
  | O => None
  | S n =>
      match ts with
      | TPlus :: ts' =>
          match p_factor n ts' with
          | Some (x, ts'') => Some (UnaryOp UAdd x, ts'')
          | None => None
          end
      | TMinus :: ts' =>
          match p_factor n ts' with
          | Some (x, ts'') => Some (UnaryOp USub x, ts'')
          | None => None
          end
      | _ => p_power n ts
      end
  end

(** [power: primary '**' factor | primary] *)
with p_power (n : nat) (ts : list token) : parsed :=
  match n with
  | O => None
  | S n =>
      match p_atom n ts with
      | Some (a, ts') =>
          match p_trailers n a ts' with
          | Some (b, TDoubleStar :: ts'') =>
              match p_factor n ts'' with
              | Some (e, ts''') => Some (BinOp b Pow e, ts''')
              | None => None
              end
          | other => other
          end
      | None => None
      end
  end

(** [primary: primary '(' arguments ')' | atom]: the calls after an atom. *)
with p_trailers (n : nat) (f : node) (ts : list token) : parsed :=
  match n with
  | O => None
  | S n =>
      match ts with
      | TLParen :: ts' =>
          match p_args n false ts' with
          | Some (args, kws, TRParen :: ts'') => p_trailers n (Call f args kws) ts''
          | _ => None
          end
      | _ => Some (f, ts)
      end
  end

with p_atom (n : nat) (ts : list token) : parsed :=
  match n with
  | O => None
  | S n =>
      match ts with
      | TInt z :: ts' => Some (Constant (VInt z), ts')
      | TFloat f :: ts' => Some (Constant (VFloat f), ts')
      | TConst v :: ts' => Some (Constant v, ts')
      | TString s :: ts' => Some (Constant (VStr s), ts')
      | TName x :: ts' => Some (Name x Load, ts')
      | TLParen :: TRParen :: ts' => Some (Tuple [] Load, ts')
      | TLParen :: ts' =>
          match p_exprs n ts' with
          | Some (elts, comma, TRParen :: ts'') =>
              match elts, comma with
              | [x], false => Some (x, ts'')
              | _, _ => Some (Tuple elts Load, ts'')
              end
          | _ => None
          end
      | TLBracket :: TRBracket :: ts' => Some (List [] Load, ts')
      | TLBracket :: ts' =>
          match p_exprs n ts' with
          | Some (elts, _, TRBracket :: ts'') => Some (List elts Load, ts'')
          | _ => None
          end
      | _ => None
      end
  end

(** [expression (',' expression)* [',']]: the expressions, whether a
    comma was read, and what follows. *)
with p_exprs (n : nat) (ts : list token) : option (list node * bool * list token) :=
  match n with
  | O => None
  | S n =>
      match p_sum n ts with
      | Some (x, TComma :: ts') =>
          match p_exprs n ts' with
          | Some (xs, _, ts'') => Some (x :: xs, true, ts'')
          | None => Some ([x], true, ts')
          end
      | Some (x, ts') => Some ([x], false, ts')
      | None => None
      end
  end

(** The arguments of a call up to the closing parenthesis: positional
    ones, then [name=value] ones. *)
with p_args (n : nat) (seen_keyword : bool) (ts : list token)
  : option (list node * list node * list token) :=
  match n with
  | O => None
  | S n =>
      let continue (kw : bool) (ts' : list token) :=
        match ts' with
        | TComma :: (TRParen :: _) as ts'' => Some ([], [], ts'')
        | TComma :: ts'' => p_args n kw ts''
        | _ => Some ([], [], ts')
        end in
      match ts with
      | TRParen :: _ => if seen_keyword then None else Some ([], [], ts)
      | TName k :: TEqual :: ts' =>
          match p_sum n ts' with
          | Some (v, ts'') =>
              match continue true ts'' with
              | Some (args, kws, r) => Some (args, keyword (Some k) v :: kws, r)
              | None => None
              end
          | None => None
          end
      | _ =>
          if seen_keyword then None
          else
            match p_sum n ts with
            | Some (v, ts') =>
                match continue false ts' with
                | Some (args, kws, r) => Some (v :: args, kws, r)
                | None => None
                end
            | None => None
            end
      end
  end.

Definition parse_calc (text : string) : option node :=
  match text with
  | String a _ =>
      if (nat_of_ascii a =? 32)%nat || (nat_of_ascii a =? 9)%nat then None
      else
        match tokenize (S (String.length text)) text with
        | Some ts =>
            match p_exprs (8 * S (List.length ts)) ts with
            | Some ([x], false, []) => Some (Expression x)
            | Some (elts, true, []) => Some (Expression (Tuple elts Load))
            | _ => None
            end
        | None => None
        end
  | EmptyString => None
  end.

(** ** The outcome of validation, read off the pre-order walk *)

(** A node [isinstance(node, ALLOWED_NODES)] turns away. *)
Definition rejected (n : node) : bool := negb (isinstance n ALLOWED_NODES).

(** The first rejected node of a walk. *)
Definition first_rejected (walk : list node) : option node := find rejected walk.

Definition check_outcome (walk : list node) : result unit :=
  match first_rejected walk with
  | Some bad => Err (unsupported_element bad)
  | None => Ok tt
  end.

(** ** A runtime to run examples on

    [ast.parse] is [parse_calc] and [str] of a module function is
    CPython's; the other operations the development leaves abstract
    answer with a fixed value (no example reaches them). *)
Definition calc_runtime : runtime :=
  {| ast_parse := fun text =>
       match parse_calc text with
       | Some tree => inr tree
       | None => inl "invalid syntax (<unknown>, line 1)"
       end;
     float_floor_divide := fun _ _ => nan;
     float_remainder := fun _ _ => nan;
     float_power := fun _ _ => Err (Builtin COverflowError);
     complex_arith := fun _ _ _ => Err (Builtin CTypeError);
     str_format := fun _ _ => Err (Builtin CTypeError);
     rich_compare := fun _ _ _ => Err (Builtin CTypeError);
     module_call := fun _ _ _ => Err (Builtin CValueError);
     str_of := fun v =>
       match v with
       | VFunc (Math name) | VFunc (CMath name) =>
           ("<built-in function " ++ name ++ ">")%string
       | _ => "<function <lambda>>"
       end |}.

(** The runtime's parser is CPython's on the calculator's grammar. *)
Definition parses_calc (rt : runtime) : Prop :=
  forall text tree, parse_calc text = Some tree -> ast_parse rt text = inr tree.

(** ** The specification's error kinds

    Section 7 of the specification names kinds of failure; this is how
    the exceptions of the code fall under them.  The three messages are
    those [eval_expr] and [_eval] format; an exception of class
    [ValueError] raised by a library function is a domain error, which
    the specification counts as an arithmetic error. *)
Inductive error_kind : Type :=
| KSyntaxError
| KRejectedSyntax
| KNameError
| KTypeError
| KArithmeticError
| KCallError
| KInternalError
| KOther.

Definition error_kind_of (e : exn) : error_kind :=
  match e with
  | ValueError msg =>
      if String.prefix "Syntax error: " msg then KSyntaxError
      else if String.prefix "Unsupported expression element: " msg then KRejectedSyntax
      else if String.eqb msg "Attempted to call non-callable" then KCallError
      else if String.prefix "Unsupported" msg then KInternalError
      else KOther
  | NameError _ => KNameError
  | Builtin CTypeError => KTypeError
  | Builtin CZeroDivisionError | Builtin COverflowError | Builtin CValueError =>
      KArithmeticError
  | Builtin _ => KOther
  end.

(** ** Arithmetic on literals *)

(** The binary operators [_eval] knows and what each computes. *)
Definition apply_binop (rt : runtime) (op : node) (l r : value) : result value :=
  match op with
  | Add => py_add rt l r
  | Sub => py_sub rt l r
  | Mult => py_mul rt l r
  | Div => py_truediv rt l r
  | FloorDiv => py_floordiv rt l r
  | Mod => py_mod rt l r
  | Pow => py_pow rt l r
  | _ => Err (ValueError "Unsupported operator")
  end.

(** An expression built only from numeric literals, the seven binary
    operators and unary [+] and [-]. *)
Fixpoint literal_arith (n : node) : bool :=
  match n with
  | Constant v => is_num v
  | BinOp l op r =>
      literal_arith l && literal_arith r &&
      match op with
      | Add | Sub | Mult | Div | FloorDiv | Mod | Pow => true
      | _ => false
      end
  | UnaryOp op x =>
      literal_arith x && match op with UAdd | USub => true | _ => false end
  | _ => false
  end.

(** The direct computation on such an expression: Python's operators
    on the literals, no name environment involved. *)
Fixpoint compute (rt : runtime) (n : node) : result value :=
  match n with
  | Constant v => Ok v
  | BinOp l op r =>
      a <- compute rt l ;; b <- compute rt r ;; apply_binop rt op a b
  | UnaryOp UAdd x => v <- compute rt x ;; py_pos v
  | UnaryOp USub x => v <- compute rt x ;; py_neg v
  | _ => Err (Builtin CTypeError)
  end.

(** The integer an expression over [int] literals denotes, with floor
    division, the remainder that takes the sign of the divisor, and
    powers with a non-negative exponent; [None] on a zero divisor, a
    negative exponent, [/] or anything that is not such an expression. *)
Fixpoint int_value (n : node) : option Z :=
  match n with
  | Constant (VInt z) => Some z
  | BinOp l op r =>
      match int_value l, int_value r with
      | Some a, Some b =>
          match op with
          | Add => Some (a + b)
          | Sub => Some (a - b)
          | Mult => Some (a * b)
          | FloorDiv => if b =? 0 then None else Some (a / b)
          | Mod => if b =? 0 then None else Some (a mod b)
          | Pow => if b <? 0 then None else Some (a ^ b)
          | _ => None
          end
      | _, _ => None
      end
  | UnaryOp UAdd x => int_value x
  | UnaryOp USub x => option_map Z.opp (int_value x)
  | _ => None
  end.

(** ** Constructs the specification wants turned away *)

(** Assignment as an expression, attribute access, subscripting,
    [lambda] and the four comprehensions. *)
Definition forbidden_construct (n : node) : bool :=
  match n with
  | NamedExpr _ _ | Attribute _ _ _ | Subscript _ _ _ | Lambda _ _
  | ListComp _ _ | SetComp _ _ | DictComp _ _ _ | GeneratorExp _ _ => true
  | _ => false
  end.

(** The tree of ["__import__('os')"]. *)
Definition import_os_tree : node :=
  Expression (Call (Name "__import__" Load) [Constant (VStr "os")] []).

(** [calc_runtime] with a parser that also reads ["x.y"] (an attribute
    access, which [parse_calc] does not cover). *)
Definition attribute_runtime : runtime :=
  {| ast_parse := fun text =>
       if String.eqb text "x.y"
       then inr (Expression (Attribute (Name "x" Load) "y" Load))
       else ast_parse calc_runtime text;
     float_floor_divide := float_floor_divide calc_runtime;
     float_remainder := float_remainder calc_runtime;
     float_power := float_power calc_runtime;
     complex_arith := complex_arith calc_runtime;
     str_format := str_format calc_runtime;
     rich_compare := rich_compare calc_runtime;
     module_call := module_call calc_runtime;
     str_of := str_of calc_runtime |}.

(** ** Real numbers and zero *)

(** An [int], a [bool] or a [float]. *)
Definition is_real (v : value) : bool :=
  match v with
  | VInt _ | VBool _ | VFloat _ => true
  | _ => false
  end.

(** A real number equal to zero: [0], [False], [0.0] or [-0.0]. *)
Definition is_zero (v : value) : bool :=
  match v with
  | VInt z => z =? 0
  | VBool b => negb b
  | VFloat f => float_is_zero f
  | _ => false
  end.

Definition is_division (op : node) : bool :=
  match op with
  | Div | FloorDiv | Mod => true
  | _ => false
  end.


(** ** Values JSON gives back unchanged *)

(** [None], [bool], [int], [float], [str] and lists of such values: a
    [tuple] comes back as a [list], and a callable or a [complex] as
    the string [str] makes of it. *)
Fixpoint json_stable (v : value) : bool :=
  match v with
  | VNone | VBool _ | VInt _ | VFloat _ | VStr _ => true
  | VList l => forallb json_stable l
  | VTuple _ | VComplex _ _ | VFunc _ => false
  end.

(** The keys of a dictionary are pairwise distinct. *)
Definition is_dict {V : Type} (d : dict V) : Prop := NoDup (map fst d).

(** The values of the session, variables and history, all come back
    unchanged from JSON. *)
Definition session_json_stable (c : Calculator) : bool :=
  forallb (fun kv => json_stable (snd kv)) (vars c) &&
  forallb (fun h => json_stable (val h)) (history c).

(** ** Sessions a user can get to *)


(** The same without [load]: what the session holds was computed in
    it. *)
Inductive computed (rt : runtime) : Calculator -> Prop :=
| comp_new : computed rt new_calculator
| comp_assign (c : Calculator) (name e : string) :
    computed rt c -> computed rt (snd (assign rt name e c))
| comp_evaluate (c : Calculator) (e : string) :
    computed rt c -> computed rt (snd (evaluate rt e c))
| comp_clear (c : Calculator) :
    computed rt c -> computed rt (snd (clear c)).

(** ** Induction over JSON values *)

Section JsonInduction.

Variable P : json -> Prop.
Hypothesis P_null : P JNull.
Hypothesis P_bool : forall b, P (JBool b).
Hypothesis P_int : forall z, P (JInt z).
Hypothesis P_float : forall f, P (JFloat f).
Hypothesis P_str : forall s, P (JStr s).
Hypothesis P_array : forall l, Forall P l -> P (JArray l).


End JsonInduction.

(** ** The keyword comprehension of [_eval] *)

(** The dictionary comprehension over [node.keywords], as the pairs it
    produces in order. *)
Fixpoint eval_keyword_list (rt : runtime) (vars : dict value) (l : list node)
  : result (list (option string * value)) :=
  match l with
  | [] => Ok []
  | keyword arg x :: l' =>
      v <- _eval rt vars x ;; kvs <- eval_keyword_list rt vars l' ;; Ok ((arg, v) :: kvs)
  | _ :: _ => Err (Builtin CAttributeError)
  end.

(** The value a [keyword] node carries, for a node that is one. *)
Definition keyword_value (n : node) : option node :=
  match n with
  | keyword _ x => Some x
  | _ => None
  end.

(** ** The shape of the trees [ast.parse] builds

    Python's abstract grammar gives every field of a node a sort: an
    operand is an expression, [op] an operator, [ctx] a context, a
    keyword argument a [keyword]. *)
Inductive sort : Type :=
| SExpr | SOperator | SUnaryOp | SContext | SKeyword.

(** Whether a node may stand in a field of the given sort.  A node of a
    class without a constructor of its own ([Other]) may be of any
    sort. *)
Definition has_sort (s : sort) (n : node) : bool :=
  match n, s with
  | Other _ _, _ => true
  | (BinOp _ _ _ | UnaryOp _ _ | Constant _ | Name _ _ | Call _ _ _
     | Tuple _ _ | List _ _ | NamedExpr _ _ | Attribute _ _ _
     | Subscript _ _ _ | Lambda _ _ | ListComp _ _ | SetComp _ _
     | DictComp _ _ _ | GeneratorExp _ _), SExpr => true
  | (Add | Sub | Mult | Div | FloorDiv | Mod | Pow), SOperator => true
  | (UAdd | USub), SUnaryOp => true
  | (Load | Store | Del), SContext => true
  | keyword _ _, SKeyword => true
  | _, _ => false
  end.

(** The fields of the node classes the evaluator handles hold nodes of
    their sorts, all the way down. *)
Fixpoint well_sorted (n : node) : bool :=
  let all :=
    fix all (s : sort) (l : list node) : bool :=
      match l with
      | [] => true
      | c :: l' => has_sort s c && well_sorted c && all s l'
      end in
  match n with
  | Expression body => has_sort SExpr body && well_sorted body
  | BinOp l op r =>
      has_sort SExpr l && well_sorted l && has_sort SOperator op &&
      has_sort SExpr r && well_sorted r
  | UnaryOp op x => has_sort SUnaryOp op && has_sort SExpr x && well_sorted x
  | Name _ ctx => has_sort SContext ctx
  | Call func args kws =>
      has_sort SExpr func && well_sorted func && all SExpr args && all SKeyword kws
  | Tuple elts ctx => all SExpr elts && has_sort SContext ctx
  | List elts ctx => all SExpr elts && has_sort SContext ctx
  | keyword _ x => has_sort SExpr x && well_sorted x
  | _ => true
  end.

Fixpoint all_well_sorted (s : sort) (l : list node) : bool :=
  match l with
  | [] => true
  | c :: l' => has_sort s c && well_sorted c && all_well_sorted s l'
  end.

(** A computation that, when it raises, raises an exception of
    CPython's own. *)
Definition raises_builtin {A : Type} (r : result A) : Prop :=
  forall e, r = Err e -> exists c, e = Builtin c.

(** The operations taken from the runtime raise only exceptions of
    CPython's own. *)
Definition runtime_raises_builtin (rt : runtime) : Prop :=
  (forall x y, raises_builtin (float_power rt x y)) /\
  (forall op a b, raises_builtin (complex_arith rt op a b)) /\
  (forall fmt v, raises_builtin (str_format rt fmt v)) /\
  (forall c a b, raises_builtin (rich_compare rt c a b)) /\
  (forall f args kwargs, raises_builtin (module_call rt f args kwargs)).

(** The exceptions evaluation can raise short of its fallbacks: an
    unknown name, a callee that is not callable, or an exception of
    CPython's own. *)
Definition expected_error (vars : dict value) (e : exn) : Prop :=
  (exists id, e = NameError ("Unknown name: " ++ id)%string /\
              dict_get vars id = None /\ dict_get ALLOWED_GLOBALS id = None) \/
  e = ValueError "Attempted to call non-callable" \/
  (exists c, e = Builtin c).

(** ** The read-evaluate-print loop: [repl]

    [input] reads the next of the lines the user types and raises
    [EOFError] when there is none; [print] adds a line to the output.
    What [str] makes of a value or of an exception of CPython's own,
    and the module's docstring, are given. *)
Record console : Type := mkConsole {
  (** [str(v)], as [print] and an f-string show a value. *)
  str_value : value -> string;
  (** [str(e)] for an exception of CPython's own. *)
  str_builtin : exn_class -> string;
  (** [__doc__.strip()] *)
  docstring : string
}.

(** [str(e)]: for an exception the source raises, its message. *)
Definition str_exn (con : console) (e : exn) : string :=
  match e with
  | ValueError msg | NameError msg => msg
  | Builtin c => str_builtin con c
  end.

(** [line.startswith(':')] *)
Definition startswith_colon (s : string) : bool :=
  match s with
  | String a _ => Ascii.eqb a ":"
  | EmptyString => false
  end.

(** [s.split()]: the words between runs of whitespace; [word] is the
    word being read. *)
Fixpoint split_words (word s : string) : list string :=
  match s with
  | EmptyString =>
      match word with
      | EmptyString => []
      | _ => [word]
      end
  | String a s' =>
      if is_space a then
        match word with
        | EmptyString => split_words EmptyString s'
        | _ => word :: split_words EmptyString s'
        end
      else split_words (word ++ String a EmptyString)%string s'
  end.

Definition split (s : string) : list string := split_words EmptyString s.

(** [s[1:]] *)
Definition drop_first (s : string) : string :=
  match s with
  | String _ s' => s'
  | EmptyString => EmptyString
  end.

(** ['=' in s] *)
Fixpoint has_equals (s : string) : bool :=
  match s with
  | String a s' => Ascii.eqb a "=" || has_equals s'
  | EmptyString => false
  end.

(** ['==' in s] *)
Fixpoint has_double_equals (s : string) : bool :=
  match s with
  | String a s' =>
      (Ascii.eqb a "=" &&
       match s' with
       | String b _ => Ascii.eqb b "="
       | EmptyString => false
       end) || has_double_equals s'
  | EmptyString => false
  end.

(** [s.split('=', 1)] for a string that holds an ['=']: what is before
    the first one and what is after it. *)
Fixpoint split_at_equals (s : string) : string * string :=
  match s with
  | String a s' =>
      if Ascii.eqb a "=" then (EmptyString, s')
      else let (l, r) := split_at_equals s' in (String a l, r)
  | EmptyString => (EmptyString, EmptyString)
  end.

(** [str(i)] for a count. *)
Definition str_nat (i : nat) : string :=
  DecimalString.NilEmpty.string_of_uint (Nat.to_uint i).

(** How one turn of the loop ends: back to the top, [repl] returns, or
    an exception leaves [repl]. *)
Inductive status : Type :=
| Loop
| Returned
| Raised (e : exn).

(** What a turn printed, the session and the files it leaves, and how
    it ended. *)
Record outcome : Type := mkOutcome {
  printed : list string;
  session : Calculator;
  disk : files;
  next : status
}.

(** The lines [:hist] prints: [enumerate(calc.history, 1)]. *)
Fixpoint hist_lines (con : console) (i : nat) (h : list EvalResult) : list string :=
  match h with
  | [] => []
  | r :: h' =>
      (str_nat i ++ ": " ++ expr r ++ " = " ++ str_value con (val r))%string
        :: hist_lines con (S i) h'
  end.

(** One turn of the [while True] loop of [repl] on the line [input]
    returned.  [line] is not empty and has no whitespace at its ends
    where it is split, so [parts] has a first element. *)
Definition repl_step (rt : runtime) (con : console) (raw : string)
    (c : Calculator) (fs : files) : outcome :=
  let line := strip raw in
  let go (out : list string) (c' : Calculator) (fs' : files) :=
    {| printed := out; session := c'; disk := fs'; next := Loop |} in
  match line with
  | EmptyString => go [] c fs
  | _ =>
      if startswith_colon line then
        let parts := split line in
        let cmd := drop_first (hd EmptyString parts) in
        if String.eqb cmd "help" then go [docstring con] c fs
        else if String.eqb cmd "vars" then
          match vars c with
          | [] => go ["(no variables)"] c fs
          | _ =>
              go (map (fun kv => (fst kv ++ " = " ++ str_value con (snd kv))%string)
                      (vars c)) c fs
          end
        else if String.eqb cmd "hist" then
          match history c with
          | [] => go ["(no history)"] c fs
          | _ => go (hist_lines con 1 (history c)) c fs
          end
        else if String.eqb cmd "clear" then
          go ["Cleared variables and history."] (snd (clear c)) fs
        else if String.eqb cmd "save" then
          match tl parts with
          | [] => go ["Usage: :save <file>"] c fs
          | path :: _ => go [("Saved to " ++ path)%string] c (save rt path c fs)
          end
        else if String.eqb cmd "load" then
          match tl parts with
          | [] => go ["Usage: :load <file>"] c fs
          | path :: _ =>
              match load path fs c with
              | (Ok _, c') => go [("Loaded from " ++ path)%string] c' fs
              | (Err e, c') =>
                  {| printed := []; session := c'; disk := fs; next := Raised e |}
              end
          end
        else if String.eqb cmd "quit" || String.eqb cmd "q" || String.eqb cmd "exit" then
          {| printed := ["Bye!"]; session := c; disk := fs; next := Returned |}
        else go ["Unknown command. Type :help"] c fs
      else if has_equals line && negb (has_double_equals line) then
        let (lhs, rhs) := split_at_equals line in
        match assign rt lhs rhs c with
        | (Ok res, c') =>
            go [(strip lhs ++ " = " ++ str_value con (val res))%string] c' fs
        | (Err e, c') => go [("Error: " ++ str_exn con e)%string] c' fs
        end
      else
        match evaluate rt line c with
        | (Ok res, c') => go [str_value con (val res)] c' fs
        | (Err e, c') => go [("Error: " ++ str_exn con e)%string] c' fs
        end
  end.

(** The loop over the lines typed: at the end of the input [input]
    raises [EOFError], which [repl] answers with a last line. *)
Fixpoint repl_loop (rt : runtime) (con : console) (inputs : list string)
    (c : Calculator) (fs : files) : outcome :=
  match inputs with
  | [] =>
      {| printed := [String (ascii_of_nat 10) "Bye!"]; session := c; disk := fs;
         next := Returned |}
  | raw :: rest =>
      let o := repl_step rt con raw c fs in
      match next o with
      | Loop =>
          let o' := repl_loop rt con rest (session o) (disk o) in
          {| printed := printed o ++ printed o'; session := session o';
             disk := disk o'; next := next o' |}
      | _ => o
      end
  end.

(** [repl]: a new [Calculator], the banner, then the loop. *)
Definition repl (rt : runtime) (con : console) (inputs : list string) (fs : files)
  : outcome :=
  let o := repl_loop rt con inputs new_calculator fs in
  {| printed := "Advanced Calculator — type :help for help. Ctrl+C to exit." :: printed o;
     session := session o; disk := disk o; next := next o |}.

(** A console to run examples on: integers are shown in decimal and
    other values by a fixed text. *)
Definition calc_console : console :=
  {| str_value := fun v =>
       match v with
       | VInt (Zpos p) => str_nat (Pos.to_nat p)
       | VInt Z0 => "0"
       | VInt (Zneg p) => ("-" ++ str_nat (Pos.to_nat p))%string
       | _ => "<value>"
       end;
     str_builtin := fun _ => "<message>";
     docstring := "Advanced Calculator (CLI)" |}.

(** * Properties *)

(** ** Induction over syntax trees *)

Section NodeInduction.

Variable P : node -> Prop.
Hypothesis step : forall n, Forall P (iter_child_nodes n) -> P n.

(** A property holds of every node once it holds of a node whenever
    it holds of the node's children. *)
Fixpoint node_children_ind (n : node) : P n :=
  let all :=
    fix all (l : list node) : Forall P l :=
      match l with
      | [] => Forall_nil P
      | c :: l' => Forall_cons c (node_children_ind c) (all l')
      end in
  let one (c : node) : Forall P [c] :=
    Forall_cons c (node_children_ind c) (Forall_nil P) in
  let cons_ (c : node) (l : list node) (H : Forall P l) : Forall P (c :: l) :=
    Forall_cons c (node_children_ind c) H in
  let app_ (l1 l2 : list node) (H1 : Forall P l1) (H2 : Forall P l2)
    : Forall P (l1 ++ l2) := proj2 (Forall_app P l1 l2) (conj H1 H2) in
  step n
    match n return Forall P (iter_child_nodes n) with
    | Expression body => one body
    | BinOp l op r => cons_ l _ (cons_ op _ (one r))
    | UnaryOp op operand => cons_ op _ (one operand)
    | Constant _ => Forall_nil P
    | Name _ ctx => one ctx
    | Call func args keywords => cons_ func _ (app_ _ _ (all args) (all keywords))
    | Tuple elts ctx => app_ _ _ (all elts) (one ctx)
    | List elts ctx => app_ _ _ (all elts) (one ctx)
    | keyword _ v => one v
    | NamedExpr target v => cons_ target _ (one v)
    | Attribute v _ ctx => cons_ v _ (one ctx)
    | Subscript v slice ctx => cons_ v _ (cons_ slice _ (one ctx))
    | Lambda args body => cons_ args _ (one body)
    | ListComp elt generators => cons_ elt _ (all generators)
    | SetComp elt generators => cons_ elt _ (all generators)
    | DictComp key v generators => cons_ key _ (cons_ v _ (all generators))
    | GeneratorExp elt generators => cons_ elt _ (all generators)
    | Other _ children => all children
    | _ => Forall_nil P
    end.

End NodeInduction.

(** ** Induction over values *)

Section ValueInduction.

Variable P : value -> Prop.
Hypothesis P_None : P VNone.
Hypothesis P_Bool : forall b, P (VBool b).
Hypothesis P_Int : forall z, P (VInt z).
Hypothesis P_Float : forall f, P (VFloat f).
Hypothesis P_Complex : forall re im, P (VComplex re im).
Hypothesis P_Str : forall s, P (VStr s).
Hypothesis P_Tuple : forall l, Forall P l -> P (VTuple l).
Hypothesis P_List : forall l, Forall P l -> P (VList l).
Hypothesis P_Func : forall f, P (VFunc f).

Fixpoint value_elements_ind (v : value) : P v :=
  let all :=
    fix all (l : list value) : Forall P l :=
      match l with
      | [] => Forall_nil P
      | x :: l' => Forall_cons x (value_elements_ind x) (all l')
      end in
  match v with
  | VNone => P_None
  | VBool b => P_Bool b
  | VInt z => P_Int z
  | VFloat f => P_Float f
  | VComplex re im => P_Complex re im
  | VStr s => P_Str s
  | VTuple l => P_Tuple (all l)
  | VList l => P_List (all l)
  | VFunc f => P_Func f
  end.

End ValueInduction.

(** ** Validation is a pre-order walk *)

Lemma bind_unit_ok (r : result unit) : (r ;;; Ok tt) = r.
Proof. destruct r as [[]|e]; reflexivity. Qed.

Lemma check_children_app (l1 l2 : list node) :
  check_children (l1 ++ l2) = (check_children l1 ;;; check_children l2).
Proof.
  induction l1 as [|c l1 IH]; simpl; [reflexivity|].
  destruct (_check_node c); simpl; [apply IH | reflexivity].
Qed.

(** [_check_node] as the source writes it: the class test, then the
    loop over [ast.iter_child_nodes(node)]. *)
Lemma check_node_unfold (n : node) :
  _check_node n =
  if negb (isinstance n ALLOWED_NODES) then Err (unsupported_element n)
  else check_children (iter_child_nodes n).
Proof.
  destruct n; unfold iter_child_nodes; cbn [check_children];
    rewrite ?check_children_app; reflexivity.
Qed.

Lemma preorder_all_app (l1 l2 : list node) :
  preorder_all (l1 ++ l2) = preorder_all l1 ++ preorder_all l2.
Proof.
  induction l1 as [|c l1 IH]; simpl; [reflexivity|].
  rewrite IH. apply app_assoc.
Qed.

Lemma preorder_unfold (n : node) :
  preorder n = n :: preorder_all (iter_child_nodes n).
Proof.
  destruct n; unfold iter_child_nodes; cbn [preorder_all];
    rewrite ?preorder_all_app; cbn [preorder_all];
    rewrite ?app_nil_r; reflexivity.
Qed.

Lemma check_outcome_app (l1 l2 : list node) :
  check_outcome (l1 ++ l2) = (check_outcome l1 ;;; check_outcome l2).
Proof.
  unfold check_outcome, first_rejected.
  induction l1 as [|c l1 IH]; simpl; [reflexivity|].
  destruct (rejected c); [reflexivity | exact IH].
Qed.

(** [_check_node] raises for the first rejected node of the pre-order
    walk of the tree, and returns when there is none. *)
Lemma check_node_preorder (n : node) :
  _check_node n = check_outcome (preorder n).
Proof.
  induction n as [n IH] using node_children_ind.
  rewrite check_node_unfold, preorder_unfold.
  unfold check_outcome at 1, first_rejected. simpl find.
  fold (rejected n). destruct (rejected n); [reflexivity|].
  fold (first_rejected (preorder_all (iter_child_nodes n))).
  fold (check_outcome (preorder_all (iter_child_nodes n))).
  induction IH as [|c l Hc _ IHl]; [reflexivity|].
  cbn [check_children preorder_all].
  rewrite check_outcome_app, Hc, IHl. reflexivity.
Qed.

Lemma find_first_split {A : Type} (p : A -> bool) (l : list A) (x : A) :
  find p l = Some x ->
  exists before after,
    l = before ++ x :: after /\ forallb (fun y => negb (p y)) before = true /\
    p x = true.
Proof.
  induction l as [|a l IH]; simpl; [discriminate|].
  destruct (p a) eqn:Ha.
  - intros [= ->]. exists [], l. auto.
  - intros H. destruct (IH H) as (b & r & -> & Hb & Hx).
    exists (a :: b), r. simpl. rewrite Ha. auto.
Qed.

Lemma find_exists_some {A : Type} (p : A -> bool) (l : list A) :
  Exists (fun x => p x = true) l -> exists x, find p l = Some x.
Proof.
  induction 1 as [a l Ha | a l _ IH]; simpl.
  - rewrite Ha. eauto.
  - destruct (p a); eauto.
Qed.

(** ** Validation comes first (C1) *)

Lemma existsb_find_some {A : Type} (p : A -> bool) (l : list A) :
  existsb p l = true -> exists x, find p l = Some x.
Proof.
  induction l as [|a l IH]; simpl; [discriminate|].
  destruct (p a); eauto.
Qed.

Lemma forallb_pointwise {A : Type} (f g : A -> bool) (l : list A) :
  (forall x, f x = g x) -> forallb f l = forallb g l.
Proof.
  intros H. induction l as [|a l IH]; simpl; [reflexivity|].
  rewrite H, IH. reflexivity.
Qed.

(** C1.  When the parsed tree holds, anywhere, a node whose class is not
    in [ALLOWED_NODES], [eval_expr] raises the [ValueError] that names
    the class of the first such node of the pre-order walk, whatever
    the variables and the runtime are: every node before it in the walk
    is allowed, and nothing of the tree is evaluated (an unknown name,
    a zero divisor or a failing call elsewhere in the tree does not
    show). *)
Theorem eval_expr_rejects_before_evaluating
    (rt : runtime) (vars : dict value) (expr : string) (tree : node) :
  ast_parse rt expr = inr tree ->
  existsb rejected (preorder tree) = true ->
  exists before bad after,
    preorder tree = before ++ bad :: after /\
    forallb (fun n => isinstance n ALLOWED_NODES) before = true /\
    isinstance bad ALLOWED_NODES = false /\
    _check_node tree = Err (ValueError ("Unsupported expression element: " ++ type_name bad)%string) /\
    eval_expr rt vars expr =
      Err (ValueError ("Unsupported expression element: " ++ type_name bad)%string).
Proof.
  intros Hparse Hex.
  destruct (existsb_find_some _ _ Hex) as [bad Hfind].
  destruct (find_first_split _ _ Hfind) as (before & after & Hsplit & Hbefore & Hbad).
  assert (Hcheck : _check_node tree = Err (unsupported_element bad)).
  { rewrite check_node_preorder. unfold check_outcome, first_rejected.
    rewrite Hfind. reflexivity. }
  exists before, bad, after. repeat split.
  - exact Hsplit.
  - rewrite <- Hbefore. apply forallb_pointwise. intros n. unfold rejected.
    rewrite negb_involutive. reflexivity.
  - unfold rejected in Hbad. apply negb_true_iff in Hbad. exact Hbad.
  - exact Hcheck.
  - unfold eval_expr. rewrite Hparse, Hcheck. reflexivity.
Qed.

Lemma eval_expr_rejects_before_evaluating_witness :
  exists before bad after,
    preorder (Expression (Call (Name "pct" Load) [Constant (VInt 15)]
                [keyword (Some "b") (Constant (VInt 240))]))
      = before ++ bad :: after /\
    forallb (fun n => isinstance n ALLOWED_NODES) before = true /\
    isinstance bad ALLOWED_NODES = false /\
    _check_node (Expression (Call (Name "pct" Load) [Constant (VInt 15)]
                   [keyword (Some "b") (Constant (VInt 240))]))
      = Err (ValueError ("Unsupported expression element: " ++ type_name bad)%string) /\
    eval_expr calc_runtime [] "pct(15, b=240)" =
      Err (ValueError ("Unsupported expression element: " ++ type_name bad)%string).
Proof.
  apply (@eval_expr_rejects_before_evaluating calc_runtime [] "pct(15, b=240)");
    vm_compute; reflexivity.
Defined.

(** ** What validation turns away, and what it lets through (C2) *)

Lemma existsb_weaken {A : Type} (p q : A -> bool) (l : list A) :
  (forall x, p x = true -> q x = true) -> existsb p l = true -> existsb q l = true.
Proof.
  intros H. induction l as [|a l IH]; simpl; [discriminate|].
  intros Hp. apply orb_true_iff in Hp. apply orb_true_iff.
  destruct Hp as [Hp|Hp]; [left; auto | right; auto].
Qed.

(** A tree with a rejected node fails validation on a node of the tree
    that is rejected. *)
Lemma check_node_rejects (tree : node) :
  existsb rejected (preorder tree) = true ->
  exists bad,
    In bad (preorder tree) /\ isinstance bad ALLOWED_NODES = false /\
    _check_node tree = Err (unsupported_element bad).
Proof.
  intros Hex.
  destruct (existsb_find_some _ _ Hex) as [bad Hfind].
  exists bad. destruct (find_some _ _ Hfind) as [Hin Hbad].
  repeat split; [exact Hin | |].
  - unfold rejected in Hbad. apply negb_true_iff in Hbad. exact Hbad.
  - rewrite check_node_preorder. unfold check_outcome, first_rejected.
    rewrite Hfind. reflexivity.
Qed.

Lemma eval_expr_check_error (rt : runtime) (vars : dict value)
    (expr : string) (tree : node) (e : exn) :
  ast_parse rt expr = inr tree -> _check_node tree = Err e ->
  eval_expr rt vars expr = Err e.
Proof. intros Hp Hc. unfold eval_expr. rewrite Hp, Hc. reflexivity. Qed.

Lemma forbidden_is_rejected (n : node) :
  forbidden_construct n = true -> rejected n = true.
Proof. destruct n; simpl; try discriminate; reflexivity. Qed.

(** C2, as the code has it.  An expression whose tree holds an
    assignment expression, an attribute access, a subscript, a lambda
    or a comprehension is rejected by validation and [eval_expr] raises
    the [ValueError] naming a rejected class.  A string literal is a
    [Constant] and passes validation; so does ["__import__('os')"],
    which fails at evaluation with [NameError] when no variable has
    that name: the name is not looked up anywhere else and nothing is
    called. *)
Theorem validation_rejects_forbidden_constructs
    (rt : runtime) (vars : dict value) (expr : string) (tree : node) :
  ast_parse rt expr = inr tree ->
  existsb forbidden_construct (preorder tree) = true ->
  ast_parse rt "__import__('os')" = inr import_os_tree ->
  dict_get vars "__import__" = None ->
  (exists bad,
     In bad (preorder tree) /\ isinstance bad ALLOWED_NODES = false /\
     _check_node tree =
       Err (ValueError ("Unsupported expression element: " ++ type_name bad)%string) /\
     eval_expr rt vars expr =
       Err (ValueError ("Unsupported expression element: " ++ type_name bad)%string)) /\
  (forall s, _check_node (Expression (Constant (VStr s))) = Ok tt) /\
  _check_node import_os_tree = Ok tt /\
  eval_expr rt vars "__import__('os')" = Err (NameError "Unknown name: __import__").
Proof.
  intros Hparse Hforb Himport Hvars. repeat split.
  - assert (Hrej : existsb rejected (preorder tree) = true)
      by (eapply existsb_weaken; [apply forbidden_is_rejected | exact Hforb]).
    destruct (check_node_rejects _ Hrej) as (bad & Hin & Hbad & Hcheck).
    exists bad. repeat split; try assumption.
    eapply eval_expr_check_error; eassumption.
  - unfold eval_expr. rewrite Himport.
    change (_check_node import_os_tree) with (@Ok unit tt).
    cbn [bind import_os_tree _eval]. rewrite Hvars. reflexivity.
Qed.

Lemma validation_rejects_forbidden_constructs_witness :
  (exists bad,
     In bad (preorder (Expression (Attribute (Name "x" Load) "y" Load))) /\
     isinstance bad ALLOWED_NODES = false /\
     _check_node (Expression (Attribute (Name "x" Load) "y" Load)) =
       Err (ValueError ("Unsupported expression element: " ++ type_name bad)%string) /\
     eval_expr attribute_runtime [("x", VInt 1)] "x.y" =
       Err (ValueError ("Unsupported expression element: " ++ type_name bad)%string)) /\
  (forall s, _check_node (Expression (Constant (VStr s))) = Ok tt) /\
  _check_node import_os_tree = Ok tt /\
  eval_expr attribute_runtime [("x", VInt 1)] "__import__('os')" =
    Err (NameError "Unknown name: __import__").
Proof.
  apply (@validation_rejects_forbidden_constructs attribute_runtime [("x", VInt 1)]
           "x.y" (Expression (Attribute (Name "x" Load) "y" Load)));
    vm_compute; reflexivity.
Defined.

(** C2 as stated fails: validation accepts a string literal, and the
    tree of ["__import__('os')"] passes it; the failure is the
    [NameError] of evaluation. *)
Lemma import_os_passes_validation :
  parse_calc "__import__('os')" = Some import_os_tree /\
  _check_node import_os_tree = Ok tt /\
  _check_node (Expression (Constant (VStr "os"))) = Ok tt /\
  eval_expr calc_runtime [] "__import__('os')" =
    Err (NameError "Unknown name: __import__") /\
  error_kind_of (NameError "Unknown name: __import__") <> KRejectedSyntax.
Proof. repeat split; try (vm_compute; reflexivity). discriminate. Qed.

(** ** Arithmetic on literals (C3) *)

Lemma eval_BinOp (rt : runtime) (vars : dict value) (l op r : node) :
  _eval rt vars (BinOp l op r) =
  (a <- _eval rt vars l ;; b <- _eval rt vars r ;; apply_binop rt op a b).
Proof. reflexivity. Qed.

Lemma eval_UnaryOp (rt : runtime) (vars : dict value) (op x : node) :
  _eval rt vars (UnaryOp op x) =
  (v <- _eval rt vars x ;;
   match op with
   | UAdd => py_pos v
   | USub => py_neg v
   | _ => Err (ValueError "Unsupported unary operator")
   end).
Proof. reflexivity. Qed.

(** Evaluation of an expression over literals never consults the
    variables. *)
Lemma eval_literal_arith (rt : runtime) (vars : dict value) (t : node) :
  literal_arith t = true -> _eval rt vars t = compute rt t.
Proof.
  induction t; try discriminate.
  - cbn [literal_arith]. intros H.
    apply andb_true_iff in H. destruct H as [H Hop].
    apply andb_true_iff in H. destruct H as [Hl Hr].
    rewrite eval_BinOp, IHt1, IHt3 by assumption. reflexivity.
  - cbn [literal_arith]. intros H.
    apply andb_true_iff in H. destruct H as [Hx Hop].
    rewrite eval_UnaryOp, IHt2 by assumption.
    destruct t1; try discriminate; reflexivity.
  - reflexivity.
Qed.

(** On [int] literals the operators are the integer ones. *)
Lemma eval_int_value (rt : runtime) (vars : dict value) (t : node) :
  forall z, int_value t = Some z -> _eval rt vars t = Ok (VInt z).
Proof.
  induction t; try discriminate.
  - intros z. cbn [int_value].
    destruct (int_value t1) as [a|]; [|discriminate].
    destruct (int_value t3) as [b|]; [|discriminate].
    rewrite eval_BinOp, (IHt1 a eq_refl), (IHt3 b eq_refl). cbn [bind].
    destruct t2; try discriminate; cbn.
    + intros [= <-]. reflexivity.
    + intros [= <-]. reflexivity.
    + intros [= <-]. reflexivity.
    + destruct (b =? 0); [discriminate|]. intros [= <-]. reflexivity.
    + destruct (b =? 0); [discriminate|]. intros [= <-]. reflexivity.
    + destruct (Z.ltb_spec b 0); [discriminate|]. intros [= <-].
      destruct (Z.leb_spec 0 b); [reflexivity | lia].
  - intros z. destruct t1; try discriminate; cbn [int_value].
    + intros H. rewrite eval_UnaryOp, (IHt2 z H). reflexivity.
    + destruct (int_value t2) as [a|]; [|discriminate].
      intros [= <-]. rewrite eval_UnaryOp, (IHt2 a eq_refl). reflexivity.
  - intros z. destruct v; try discriminate. intros [= <-]. reflexivity.
Qed.

(** C3, as the code has it.  An expression built only from numeric
    literals evaluates to the direct computation on the literals,
    whatever the variables hold, and over [int] literals that is exact
    integer arithmetic with floor division and the remainder that takes
    the divisor's sign.  The grouping is that of Python's grammar:
    [*], [/], [//], [%] before [+], [-], both left-associative, unary
    [+] and [-] before them, and [**], right-associative, before a
    unary operator on its left. *)
Theorem literal_arithmetic_is_direct_computation
    (rt : runtime) (vars : dict value) (t u : node) (z : Z) :
  parses_calc rt ->
  literal_arith t = true ->
  int_value u = Some z ->
  _eval rt vars t = compute rt t /\
  _eval rt vars u = Ok (VInt z) /\
  eval_expr rt vars "2 + 3 * 4" = Ok (VInt 14) /\
  eval_expr rt vars "2 ** 10" = Ok (VInt 1024) /\
  eval_expr rt vars "7 // 2" = Ok (VInt 3) /\
  eval_expr rt vars "-7 % 2" = Ok (VInt 1) /\
  eval_expr rt vars "7 - 2 - 1" = Ok (VInt 4) /\
  eval_expr rt vars "2 ** 3 ** 2" = Ok (VInt 512) /\
  eval_expr rt vars "-2 ** 2" = Ok (VInt (-4)) /\
  eval_expr rt vars "2 * -3" = Ok (VInt (-6)).
Proof.
  intros Hparse Ht Hu.
  assert (run : forall text tree v,
             parse_calc text = Some (Expression tree) ->
             _check_node (Expression tree) = Ok tt ->
             int_value tree = Some v ->
             eval_expr rt vars text = Ok (VInt v)).
  { intros text tree v Hp Hc Hv. unfold eval_expr.
    rewrite (Hparse _ _ Hp), Hc. cbn [bind]. apply eval_int_value, Hv. }
  split; [apply eval_literal_arith, Ht|].
  split; [apply eval_int_value, Hu|].
  repeat split;
    (eapply run; [vm_compute; reflexivity | vm_compute; reflexivity | reflexivity]).
Qed.

Lemma literal_arithmetic_is_direct_computation_witness :
  _eval calc_runtime [("x", VInt 5)]
      (BinOp (Constant (VFloat 2.5)) Div (Constant (VInt 2)))
    = compute calc_runtime (BinOp (Constant (VFloat 2.5)) Div (Constant (VInt 2))) /\
  _eval calc_runtime [("x", VInt 5)]
      (BinOp (UnaryOp USub (Constant (VInt 7))) FloorDiv (Constant (VInt 2)))
    = Ok (VInt (-4)) /\
  eval_expr calc_runtime [("x", VInt 5)] "2 + 3 * 4" = Ok (VInt 14) /\
  eval_expr calc_runtime [("x", VInt 5)] "2 ** 10" = Ok (VInt 1024) /\
  eval_expr calc_runtime [("x", VInt 5)] "7 // 2" = Ok (VInt 3) /\
  eval_expr calc_runtime [("x", VInt 5)] "-7 % 2" = Ok (VInt 1) /\
  eval_expr calc_runtime [("x", VInt 5)] "7 - 2 - 1" = Ok (VInt 4) /\
  eval_expr calc_runtime [("x", VInt 5)] "2 ** 3 ** 2" = Ok (VInt 512) /\
  eval_expr calc_runtime [("x", VInt 5)] "-2 ** 2" = Ok (VInt (-4)) /\
  eval_expr calc_runtime [("x", VInt 5)] "2 * -3" = Ok (VInt (-6)).
Proof.
  apply (@literal_arithmetic_is_direct_computation calc_runtime [("x", VInt 5)]
           (BinOp (Constant (VFloat 2.5)) Div (Constant (VInt 2)))
           (BinOp (UnaryOp USub (Constant (VInt 7))) FloorDiv (Constant (VInt 2)))
           (-4)).
  - intros text tree H. unfold calc_runtime, ast_parse. rewrite H. reflexivity.
  - reflexivity.
  - reflexivity.
Defined.

(** C3 as stated fails on the precedence it gives: with unary minus
    binding tightest, ["-2 ** 2"] would be [(-2) ** 2 = 4]; the tree is
    [-(2 ** 2)] and the result is [-4]. *)
Lemma unary_minus_is_applied_after_power :
  parse_calc "-2 ** 2" =
    Some (Expression (UnaryOp USub (BinOp (Constant (VInt 2)) Pow (Constant (VInt 2))))) /\
  eval_expr calc_runtime [] "-2 ** 2" = Ok (VInt (-4)) /\
  _eval calc_runtime [] (BinOp (UnaryOp USub (Constant (VInt 2))) Pow (Constant (VInt 2)))
    = Ok (VInt 4).
Proof. repeat split; vm_compute; reflexivity. Qed.

(** ** A failed evaluation leaves the session as it was (C4) *)

(** C4.  When the inner evaluation of an expression raises, [evaluate]
    and [assign] raise too and return the session as they received it:
    same variables, same history.  [assign] raises the same exception,
    or its own for a name that is not an identifier.  In particular an
    unknown identifier raises [NameError] and changes nothing. *)
Theorem failed_evaluation_leaves_session_unchanged
    (rt : runtime) (c : Calculator) (name e : string) (err : exn) :
  eval_expr rt (vars c) e = Err err ->
  parses_calc rt ->
  dict_get (vars c) "totallyUndefinedName" = None ->
  evaluate rt e c = (Err err, c) /\
  assign rt name e c =
    (Err (if isidentifier (strip name) then err
          else ValueError "Invalid variable name"), c) /\
  evaluate rt "totallyUndefinedName" c =
    (Err (NameError "Unknown name: totallyUndefinedName"), c) /\
  assign rt name "totallyUndefinedName" c =
    (Err (if isidentifier (strip name)
          then NameError "Unknown name: totallyUndefinedName"
          else ValueError "Invalid variable name"), c).
Proof.
  intros Herr Hparse Hvars.
  assert (Hname : eval_expr rt (vars c) "totallyUndefinedName" =
                  Err (NameError "Unknown name: totallyUndefinedName")).
  { unfold eval_expr.
    rewrite (Hparse "totallyUndefinedName"
               (Expression (Name "totallyUndefinedName" Load)))
      by (vm_compute; reflexivity).
    change (_check_node (Expression (Name "totallyUndefinedName" Load)))
      with (@Ok unit tt).
    cbn [bind _eval]. rewrite Hvars. reflexivity. }
  unfold evaluate, assign, mbind, evaluator_eval_expr, raise.
  destruct (isidentifier (strip name)); cbn [negb];
    rewrite ?Herr, ?Hname; repeat split; reflexivity.
Qed.

Lemma failed_evaluation_leaves_session_unchanged_witness :
  let c := {| vars := [("x", VInt 10)];
              history := [{| expr := "x = 10"; val := VInt 10; is_assignment := true |}] |} in
  evaluate calc_runtime "1 / 0" c = (Err (Builtin CZeroDivisionError), c) /\
  assign calc_runtime " y " "1 / 0" c =
    (Err (if isidentifier (strip " y ") then Builtin CZeroDivisionError
          else ValueError "Invalid variable name"), c) /\
  evaluate calc_runtime "totallyUndefinedName" c =
    (Err (NameError "Unknown name: totallyUndefinedName"), c) /\
  assign calc_runtime " y " "totallyUndefinedName" c =
    (Err (if isidentifier (strip " y ")
          then NameError "Unknown name: totallyUndefinedName"
          else ValueError "Invalid variable name"), c).
Proof.
  intros c.
  apply (@failed_evaluation_leaves_session_unchanged calc_runtime c " y " "1 / 0"
           (Builtin CZeroDivisionError)).
  - vm_compute. reflexivity.
  - intros text tree H. unfold calc_runtime, ast_parse. rewrite H. reflexivity.
  - reflexivity.
Defined.

(** ** Names: variables first, then globals (C5) *)

(** C5.  A [Name] node evaluates to the value the variables hold for
    it, otherwise to the one [ALLOWED_GLOBALS] holds, and raises
    [NameError] with the name exactly when neither has it; a variable
    hides the global of the same name. *)
Theorem name_resolves_in_variables_then_globals
    (rt : runtime) (vars : dict value) (name : string) (ctx : node) :
  _eval rt vars (Name name ctx) =
    match dict_get vars name with
    | Some v => Ok v
    | None =>
        match dict_get ALLOWED_GLOBALS name with
        | Some v => Ok v
        | None => Err (NameError ("Unknown name: " ++ name)%string)
        end
    end /\
  ((exists e, _eval rt vars (Name name ctx) = Err e) <->
   dict_get vars name = None /\ dict_get ALLOWED_GLOBALS name = None) /\
  (forall e, _eval rt vars (Name name ctx) = Err e ->
             e = NameError ("Unknown name: " ++ name)%string) /\
  (forall v, _eval rt (dict_set vars name v) (Name name ctx) = Ok v) /\
  _eval rt [("pi", VInt 3)] (Name "pi" Load) = Ok (VInt 3) /\
  _eval rt [] (Name "pi" Load) = Ok (VFloat 0x1.921fb54442d18p+1%float).
Proof.
  assert (Hset : forall (d : dict value) k v, dict_get (dict_set d k v) k = Some v).
  { induction d as [|[k' v'] d IH]; intros k v; simpl.
    - rewrite String.eqb_refl. reflexivity.
    - destruct (String.eqb k k') eqn:E; simpl; rewrite E; auto. }
  split; [reflexivity|]. split; [|split; [|split; [|split; reflexivity]]].
  - cbn [_eval]. split.
    + intros [e H]. destruct (dict_get vars name); [discriminate|].
      destruct (dict_get ALLOWED_GLOBALS name); [discriminate|]. auto.
    + intros [-> ->]. eauto.
  - intros e. cbn [_eval].
    destruct (dict_get vars name); [discriminate|].
    destruct (dict_get ALLOWED_GLOBALS name); [discriminate|].
    intros [= <-]. reflexivity.
  - intros v. cbn [_eval]. rewrite Hset. reflexivity.
Qed.

(** ** Division by zero (C6) *)

Lemma int_to_float_zero : int_to_float 0 = Ok 0%float.
Proof. reflexivity. Qed.

Lemma int_to_float_error (z : Z) (e : exn) :
  int_to_float z = Err e -> e = Builtin COverflowError.
Proof.
  unfold int_to_float.
  destruct (binary_normalize prec emax z 0 false); congruence.
Qed.

Lemma float_zero_of_false : float_is_zero 0%float = true.
Proof. reflexivity. Qed.

(** The divisor as a number, and what it converts to. *)
Lemma zero_as_number (b : value) :
  is_zero b = true ->
  as_number b = Some (NInt 0) \/
  exists f, as_number b = Some (NFloat f) /\ float_is_zero f = true.
Proof.
  destruct b; try discriminate; cbn.
  - destruct b; [discriminate|]. auto.
  - intros H. apply Z.eqb_eq in H. subst. auto.
  - eauto.
Qed.

Lemma real_as_number (a : value) :
  is_real a = true ->
  (exists x, as_number a = Some (NInt x)) \/ (exists f, as_number a = Some (NFloat f)).
Proof. destruct a; try discriminate; cbn; eauto. Qed.

(** Dividing real numbers by a zero: the three operators raise
    [ZeroDivisionError], or [OverflowError] when an [int] operand is
    too large to be converted for a [float] division. *)
Lemma real_division_by_zero (rt : runtime) (op : node) (a b : value) :
  is_division op = true -> is_real a = true -> is_zero b = true ->
  exists e, apply_binop rt op a b = Err e /\ is_ArithmeticError e = true.
Proof.
  intros Hop Ha Hb.
  assert (Hnotstr : forall k : result value,
             match a with VStr fmt => str_format rt fmt b | _ => k end = k)
    by (destruct a; try discriminate; reflexivity).
  destruct (real_as_number _ Ha) as [[x Hx]|[f Hf]];
    destruct (zero_as_number _ Hb) as [Hz|[g [Hg Hg0]]];
    destruct op; try discriminate;
    unfold apply_binop, py_truediv, py_floordiv, py_mod;
    rewrite ?Hnotstr, ?Hx, ?Hf, ?Hz, ?Hg;
    cbn [number_op as_floats int_true_divide Z.eqb];
    rewrite ?int_to_float_zero; cbn [bind]; rewrite ?float_zero_of_false, ?Hg0;
    try (eexists; split; reflexivity);
    destruct (int_to_float x) as [x'|e] eqn:E; cbn [bind]; rewrite ?Hg0;
    try (eexists; split; reflexivity);
    apply int_to_float_error in E; subst e; eexists; split; reflexivity.
Qed.

(** C6, as the code has it.  When the left operand of [/], [//] or [%]
    evaluates to a real number ([int], [bool] or [float]) and the right
    one to zero, evaluation raises an [ArithmeticError]
    ([ZeroDivisionError], or [OverflowError] for an [int] too large for
    a [float] division); ["1 / 0"] raises [ZeroDivisionError]. *)
Theorem division_by_zero_is_an_arithmetic_error
    (rt : runtime) (vars : dict value) (l op r : node) (a b : value) :
  parses_calc rt ->
  is_division op = true ->
  _eval rt vars l = Ok a -> is_real a = true ->
  _eval rt vars r = Ok b -> is_zero b = true ->
  (exists e, _eval rt vars (BinOp l op r) = Err e /\ is_ArithmeticError e = true) /\
  eval_expr rt vars "1 / 0" = Err (Builtin CZeroDivisionError) /\
  eval_expr rt vars "1 // 0" = Err (Builtin CZeroDivisionError) /\
  eval_expr rt vars "1 % 0" = Err (Builtin CZeroDivisionError).
Proof.
  intros Hparse Hop Hl Ha Hr Hb. split.
  - rewrite eval_BinOp, Hl, Hr. cbn [bind].
    apply real_division_by_zero; assumption.
  - repeat split; unfold eval_expr.
    + rewrite (Hparse "1 / 0" (Expression (BinOp (Constant (VInt 1)) Div (Constant (VInt 0)))))
        by (vm_compute; reflexivity). reflexivity.
    + rewrite (Hparse "1 // 0" (Expression (BinOp (Constant (VInt 1)) FloorDiv (Constant (VInt 0)))))
        by (vm_compute; reflexivity). reflexivity.
    + rewrite (Hparse "1 % 0" (Expression (BinOp (Constant (VInt 1)) Mod (Constant (VInt 0)))))
        by (vm_compute; reflexivity). reflexivity.
Qed.

Lemma division_by_zero_is_an_arithmetic_error_witness :
  (exists e,
     _eval calc_runtime [("x", VFloat 2.5)]
       (BinOp (Name "x" Load) Mod (BinOp (Constant (VInt 3)) Sub (Constant (VInt 3))))
       = Err e /\ is_ArithmeticError e = true) /\
  eval_expr calc_runtime [("x", VFloat 2.5)] "1 / 0" = Err (Builtin CZeroDivisionError) /\
  eval_expr calc_runtime [("x", VFloat 2.5)] "1 // 0" = Err (Builtin CZeroDivisionError) /\
  eval_expr calc_runtime [("x", VFloat 2.5)] "1 % 0" = Err (Builtin CZeroDivisionError).
Proof.
  apply (@division_by_zero_is_an_arithmetic_error calc_runtime [("x", VFloat 2.5)]
           (Name "x" Load) Mod (BinOp (Constant (VInt 3)) Sub (Constant (VInt 3)))
           (VFloat 2.5) (VInt 0)).
  - intros text tree H. unfold calc_runtime, ast_parse. rewrite H. reflexivity.
  - reflexivity.
  - reflexivity.
  - reflexivity.
  - reflexivity.
  - reflexivity.
Defined.

(** C6 as stated fails when the left operand is not a number: dividing
    the function [sin] by zero raises [TypeError], which is not an
    [ArithmeticError]. *)
Lemma dividing_a_function_by_zero_is_a_type_error :
  parse_calc "sin / 0" =
    Some (Expression (BinOp (Name "sin" Load) Div (Constant (VInt 0)))) /\
  _eval calc_runtime [] (Constant (VInt 0)) = Ok (VInt 0) /\
  eval_expr calc_runtime [] "sin / 0" = Err (Builtin CTypeError) /\
  is_ArithmeticError (Builtin CTypeError) = false.
Proof. repeat split; vm_compute; reflexivity. Qed.

(** ** [factorial] outside its domain (C7) *)




(** ** Keyword arguments (C8) *)

Lemma preorder_head (n : node) : In n (preorder n).
Proof. rewrite preorder_unfold. left. reflexivity. Qed.

Lemma preorder_all_in (c : node) (l : list node) :
  In c l -> In c (preorder_all l).
Proof.
  induction l as [|a l IH]; simpl; [tauto|].
  intros [->|H]; apply in_or_app; [left; apply preorder_head | right; auto].
Qed.

(** C8: what the code does with a keyword argument.  Validation rejects
    every call that has one, since the class of a [keyword] node is not
    in [ALLOWED_NODES]: ["pct(15, b=240)"] raises the [ValueError] naming
    [keyword] and is never evaluated, although [_eval] by itself
    evaluates the keyword arguments and calls [pct] with them.  A call
    whose callee evaluates to something that is not callable raises
    the [ValueError] for a non-callable. *)
Theorem keyword_arguments_are_rejected :
  (forall func args arg v keywords,
     exists bad,
       _check_node (Call func args (keyword arg v :: keywords)) =
         Err (ValueError ("Unsupported expression element: " ++ type_name bad)%string) /\
       isinstance bad ALLOWED_NODES = false) /\
  isinstance (keyword (Some "b") (Constant (VInt 240))) ALLOWED_NODES = false /\
  parse_calc "pct(15, b=240)" =
    Some (Expression (Call (Name "pct" Load) [Constant (VInt 15)]
                        [keyword (Some "b") (Constant (VInt 240))])) /\
  eval_expr calc_runtime [] "pct(15, b=240)" =
    Err (ValueError "Unsupported expression element: keyword") /\
  _eval calc_runtime []
    (Call (Name "pct" Load) [Constant (VInt 15)]
       [keyword (Some "b") (Constant (VInt 240))]) = Ok (VFloat 36%float) /\
  eval_expr calc_runtime [] "pct(15, 240)" = Ok (VFloat 36%float) /\
  (forall rt vars func args keywords f,
     _eval rt vars func = Ok f -> is_callable f = false ->
     _eval rt vars (Call func args keywords) =
       Err (ValueError "Attempted to call non-callable")).
Proof.
  split.
  { intros func args arg v keywords.
    set (tree := Call func args (keyword arg v :: keywords)).
    assert (Hex : existsb rejected (preorder tree) = true).
    { apply existsb_exists. exists (keyword arg v). split; [|reflexivity].
      unfold tree. rewrite preorder_unfold. right.
      apply preorder_all_in. cbn [iter_child_nodes]. right.
      apply in_or_app. right. left. reflexivity. }
    destruct (check_node_rejects _ Hex) as (bad & _ & Hbad & Hcheck).
    exists bad. split; assumption. }
  split; [reflexivity|].
  split; [vm_compute; reflexivity|].
  split; [vm_compute; reflexivity|].
  split; [vm_compute; reflexivity|].
  split; [vm_compute; reflexivity|].
  intros rt vars func args keywords f Hf Hc. cbn [_eval]. rewrite Hf.
  destruct f; try discriminate; reflexivity.
Qed.

(** ** Saving and loading a session (C9) *)

Lemma dict_get_set_same {V : Type} (d : dict V) (k : string) (v : V) :
  dict_get (dict_set d k v) k = Some v.
Proof.
  induction d as [|[k' v'] d IH]; simpl.
  - rewrite String.eqb_refl. reflexivity.
  - destruct (String.eqb k k') eqn:E; simpl; rewrite E; auto.
Qed.

Lemma dict_set_fresh {V : Type} (d : dict V) (k : string) (v : V) :
  ~ In k (map fst d) -> dict_set d k v = d ++ [(k, v)].
Proof.
  induction d as [|[k' v'] d IH]; simpl; [reflexivity|].
  intros H. destruct (String.eqb_spec k k') as [->|_]; [tauto|].
  rewrite IH by tauto. reflexivity.
Qed.

(** Filling a dictionary with entries of distinct new keys appends
    them in order. *)
Lemma dict_update_fresh {V : Type} (l acc : dict V) :
  NoDup (map fst (acc ++ l)) -> dict_update acc l = acc ++ l.
Proof.
  revert acc. induction l as [|[k v] l IH]; intros acc H.
  - rewrite app_nil_r. reflexivity.
  - unfold dict_update. cbn [fold_left fst snd].
    assert (Hk : ~ In k (map fst acc)).
    { rewrite map_app in H. cbn [map fst] in H.
      apply NoDup_remove_2 in H. intros Hin. apply H.
      apply in_or_app. left. exact Hin. }
    rewrite dict_set_fresh by exact Hk.
    change (fold_left _ l (acc ++ [(k, v)])) with (dict_update (acc ++ [(k, v)]) l).
    rewrite IH; rewrite <- app_assoc; [reflexivity | exact H].
Qed.


Lemma of_json_to_json (rt : runtime) (v : value) :
  json_stable v = true -> of_json (to_json rt v) = v.
Proof.
  induction v as [ | | | | | | l IH | l IH | ] using value_elements_ind;
    try reflexivity; try discriminate.
  cbn [json_stable to_json of_json]. intros H. f_equal.
  rewrite map_map. induction IH as [|x l Hx _ IHl]; [reflexivity|].
  cbn [forallb] in H. apply andb_true_iff in H. destruct H as [H1 H2].
  cbn [map]. rewrite Hx, IHl by assumption. reflexivity.
Qed.

Lemma restore_variables (rt : runtime) (d : dict value) :
  forallb (fun kv => json_stable (snd kv)) d = true ->
  map (fun kv => (fst kv, of_json (snd kv)))
      (map (fun kv => (fst kv, to_json rt (snd kv))) d) = d.
Proof.
  induction d as [|[k v] d IH]; [reflexivity|].
  cbn [forallb map fst snd]. intros H.
  apply andb_true_iff in H. destruct H as [H1 H2].
  rewrite of_json_to_json, IH by assumption. reflexivity.
Qed.

Lemma restore_history (rt : runtime) (h : list EvalResult) :
  forallb (fun r => json_stable (val r)) h = true ->
  map (fun evb =>
         match evb with
         | (e, v, b) => {| expr := e; val := of_json v; is_assignment := b |}
         end)
      (map (fun r => (expr r, to_json rt (val r), is_assignment r)) h) = h.
Proof.
  induction h as [|[e v b] h IH]; [reflexivity|].
  cbn [forallb map expr val is_assignment]. intros H.
  apply andb_true_iff in H. destruct H as [H1 H2].
  rewrite of_json_to_json, IH by assumption. reflexivity.
Qed.

(** C9, as the code has it.  For a session whose values are [None],
    booleans, integers, floats, strings and lists of these, loading
    what [save] wrote gives back the same variables (keys, values,
    order) and the same history, into a new [Calculator] and equally
    into one that already holds variables and history: what was there
    is replaced. *)
Theorem save_then_load_restores_session
    (rt : runtime) (c other : Calculator) (path : string) (fs : files) :
  is_dict (vars c) ->
  session_json_stable c = true ->
  load path (save rt path c fs) new_calculator = (Ok tt, c) /\
  load path (save rt path c fs) other = (Ok tt, c).
Proof.
  intros Hdict Hstable.
  apply andb_true_iff in Hstable. destruct Hstable as [Hv Hh].
  assert (H : forall c0, load path (save rt path c fs) c0 = (Ok tt, c)).
  { intros c0. unfold load, save. rewrite dict_get_set_same.
    cbn [doc_variables doc_history get_default vars history].
    rewrite restore_variables, restore_history by assumption.
    rewrite dict_update_fresh by exact Hdict.
    destruct c. reflexivity. }
  split; apply H.
Qed.

Lemma save_then_load_restores_session_witness :
  let c := {| vars := [("x", VInt 10); ("rates", VList [VFloat 0.5; VFloat nan])];
              history := [ {| expr := "x = 10"; val := VInt 10; is_assignment := true |};
                           {| expr := "x * 2"; val := VInt 20; is_assignment := false |} ] |} in
  let other := {| vars := [("y", VInt 1)]; history := [] |} in
  load "session.json" (save calc_runtime "session.json" c []) new_calculator = (Ok tt, c) /\
  load "session.json" (save calc_runtime "session.json" c []) other = (Ok tt, c).
Proof.
  intros c other.
  apply (@save_then_load_restores_session calc_runtime c other "session.json" []).
  - unfold is_dict. cbn. repeat constructor; cbn; intuition discriminate.
  - reflexivity.
Defined.

(** C9 as stated fails: a [tuple] is saved as a JSON array and loaded
    as a [list], and a callable is saved as the string [str] makes of
    it. *)
Lemma tuple_and_function_do_not_survive_json :
  let c := snd (assign calc_runtime "f" "sin"
                  (snd (assign calc_runtime "t" "(1, 2)" new_calculator))) in
  let c' := snd (load "session.json" (save calc_runtime "session.json" c []) new_calculator) in
  vars c = [("t", VTuple [VInt 1; VInt 2]); ("f", VFunc (Math "sin"))] /\
  vars c' = [("t", VList [VInt 1; VInt 2]); ("f", VStr "<built-in function sin>")] /\
  map val (history c) = [VTuple [VInt 1; VInt 2]; VFunc (Math "sin")] /\
  map val (history c') = [VList [VInt 1; VInt 2]; VStr "<built-in function sin>"] /\
  c' <> c.
Proof.
  cbv zeta. repeat split; try (vm_compute; reflexivity).
  vm_compute. discriminate.
Qed.

(** ** [avg] (C10) *)

Lemma py_sum_ints_from (rt : runtime) (zs : list Z) (acc : Z) :
  fold_left (fun r x => a <- r ;; py_add rt a x) (map VInt zs) (Ok (VInt acc)) =
  Ok (VInt (fold_left Z.add zs acc)).
Proof.
  revert acc. induction zs as [|z zs IH]; intros acc; [reflexivity|].
  cbn [map fold_left]. apply IH.
Qed.

(** The sum of [int] arguments is their integer sum. *)
Lemma py_sum_ints (rt : runtime) (zs : list Z) :
  py_sum rt (map VInt zs) = Ok (VInt (fold_left Z.add zs 0)).
Proof. apply py_sum_ints_from. Qed.

(** C10.  [avg()] does not raise: it evaluates to NaN.  With one or
    more arguments [avg] is their sum divided by their number; on
    integers that is the correctly rounded quotient of the integer sum
    by the count. *)
Theorem avg_of_nothing_is_nan
    (rt : runtime) (vars : dict value) (x : value) (xs : list value)
    (z : Z) (zs : list Z) :
  parses_calc rt ->
  dict_get vars "avg" = None ->
  eval_expr rt vars "avg()" = Ok (VFloat nan) /\
  call rt lambda_avg [] [] = Ok (VFloat nan) /\
  call rt lambda_avg (x :: xs) [] =
    (s <- py_sum rt (x :: xs) ;;
     py_truediv rt s (VInt (Z.of_nat (List.length (x :: xs))))) /\
  call rt lambda_avg (map VInt (z :: zs)) [] =
    int_true_divide (fold_left Z.add (z :: zs) 0) (Z.of_nat (List.length (z :: zs))) /\
  (forall e, call rt lambda_avg (map VInt (z :: zs)) [] = Err e ->
             e = Builtin COverflowError) /\
  eval_expr rt vars "avg(1, 2, 6)" = Ok (VFloat 3%float).
Proof.
  intros Hparse Hvars.
  assert (Hints : call rt lambda_avg (map VInt (z :: zs)) [] =
                  int_true_divide (fold_left Z.add (z :: zs) 0)
                    (Z.of_nat (List.length (z :: zs)))).
  { cbn [call]. unfold avg. cbn [map]. change (VInt z :: map VInt zs) with (map VInt (z :: zs)).
    rewrite py_sum_ints. cbn [bind]. unfold py_len. rewrite length_map. reflexivity. }
  assert (Hname : _eval rt vars (Name "avg" Load) = Ok (VFunc lambda_avg)).
  { cbn [_eval]. rewrite Hvars. reflexivity. }
  repeat split.
  - unfold eval_expr.
    rewrite (Hparse "avg()" (Expression (Call (Name "avg" Load) [] [])))
      by (vm_compute; reflexivity).
    change (_check_node _) with (@Ok unit tt). cbn [bind].
    change (_eval rt vars (Call (Name "avg" Load) [] []))
      with (f <- _eval rt vars (Name "avg" Load) ;;
            match f with
            | VFunc c => call rt c [] []
            | _ => Err (ValueError "Attempted to call non-callable")
            end).
    rewrite Hname. reflexivity.
  - exact Hints.
  - intros e. rewrite Hints. unfold int_true_divide.
    destruct (Z.eqb_spec (Z.of_nat (List.length (z :: zs))) 0) as [E|_];
      [cbn [List.length] in E; lia|].
    destruct (SFdiv _ _ _ _); congruence.
  - unfold eval_expr.
    rewrite (Hparse "avg(1, 2, 6)"
               (Expression (Call (Name "avg" Load)
                  [Constant (VInt 1); Constant (VInt 2); Constant (VInt 6)] [])))
      by (vm_compute; reflexivity).
    change (_check_node _) with (@Ok unit tt). cbn [bind].
    change (_eval rt vars (Call (Name "avg" Load)
              [Constant (VInt 1); Constant (VInt 2); Constant (VInt 6)] []))
      with (f <- _eval rt vars (Name "avg" Load) ;;
            match f with
            | VFunc c => call rt c [VInt 1; VInt 2; VInt 6] []
            | _ => Err (ValueError "Attempted to call non-callable")
            end).
    rewrite Hname. reflexivity.
Qed.

Lemma avg_of_nothing_is_nan_witness :
  eval_expr calc_runtime [("x", VInt 1)] "avg()" = Ok (VFloat nan) /\
  call calc_runtime lambda_avg [] [] = Ok (VFloat nan) /\
  call calc_runtime lambda_avg [VFloat 1.5; VInt 2] [] =
    (s <- py_sum calc_runtime [VFloat 1.5; VInt 2] ;;
     py_truediv calc_runtime s (VInt (Z.of_nat (List.length [VFloat 1.5; VInt 2])))) /\
  call calc_runtime lambda_avg (map VInt [7; 2]) [] =
    int_true_divide (fold_left Z.add [7; 2] 0) (Z.of_nat (List.length [7; 2])) /\
  (forall e, call calc_runtime lambda_avg (map VInt [7; 2]) [] = Err e ->
             e = Builtin COverflowError) /\
  eval_expr calc_runtime [("x", VInt 1)] "avg(1, 2, 6)" = Ok (VFloat 3%float).
Proof.
  apply (@avg_of_nothing_is_nan calc_runtime [("x", VInt 1)] (VFloat 1.5) [VInt 2] 7 [2]).
  - intros text tree H. unfold calc_runtime, ast_parse. rewrite H. reflexivity.
  - reflexivity.
Defined.

(** * Further properties of the session *)

Lemma dict_get_set_other {V : Type} (d : dict V) (k k' : string) (v : V) :
  k' <> k -> dict_get (dict_set d k v) k' = dict_get d k'.
Proof.
  intros Hne. induction d as [|[k0 v0] d IH]; simpl.
  - destruct (String.eqb_spec k' k); [contradiction | reflexivity].
  - destruct (String.eqb_spec k k0) as [->|Hk0]; simpl.
    + destruct (String.eqb_spec k' k0); [contradiction | reflexivity].
    + destruct (String.eqb k' k0); [reflexivity | exact IH].
Qed.


(** What a successful [assign] does. *)
Lemma assign_success (rt : runtime) (c : Calculator) (name e : string) (v : value) :
  isidentifier (strip name) = true ->
  eval_expr rt (vars c) e = Ok v ->
  assign rt name e c =
    (Ok {| expr := (strip name ++ " = " ++ e)%string; val := v; is_assignment := true |},
     {| vars := dict_set (vars c) (strip name) v;
        history := history c ++
          [{| expr := (strip name ++ " = " ++ e)%string; val := v;
              is_assignment := true |}] |}).
Proof.
  intros Hid He. unfold assign. rewrite Hid. cbn [negb].
  unfold mbind, evaluator_eval_expr. rewrite He. reflexivity.
Qed.

Lemma assign_failure (rt : runtime) (c : Calculator) (name e : string) :
  (exists err, assign rt name e c = (Err err, c)) \/
  (exists v, isidentifier (strip name) = true /\ eval_expr rt (vars c) e = Ok v).
Proof.
  destruct (isidentifier (strip name)) eqn:Hid.
  - destruct (eval_expr rt (vars c) e) as [v|err] eqn:He.
    + right. eauto.
    + left. exists err. unfold assign. rewrite Hid. cbn [negb].
      unfold mbind, evaluator_eval_expr. rewrite He. reflexivity.
  - left. exists (ValueError "Invalid variable name").
    unfold assign. rewrite Hid. reflexivity.
Qed.

Lemma evaluate_outcome (rt : runtime) (c : Calculator) (e : string) :
  evaluate rt e c =
  match eval_expr rt (vars c) e with
  | Ok v =>
      (Ok {| expr := e; val := v; is_assignment := false |},
       {| vars := vars c;
          history := history c ++ [{| expr := e; val := v; is_assignment := false |}] |})
  | Err err => (Err err, c)
  end.
Proof.
  unfold evaluate, mbind, evaluator_eval_expr, history_append, ret.
  destruct (eval_expr rt (vars c) e); reflexivity.
Qed.







(** X4.  [evaluate] never changes the variables, and the history only
    grows: after [evaluate] or [assign], whatever the outcome, the old
    history is the beginning of the new one, which has at most one
    record more; that record holds the value returned. *)
Theorem history_only_grows (rt : runtime) (c : Calculator) (name e : string) :
  vars (snd (evaluate rt e c)) = vars c /\
  (exists added,
     history (snd (evaluate rt e c)) = history c ++ added /\
     match fst (evaluate rt e c) with
     | Ok res => added = [res] /\ is_assignment res = false /\ expr res = e
     | Err _ => added = []
     end) /\
  (exists added,
     history (snd (assign rt name e c)) = history c ++ added /\
     match fst (assign rt name e c) with
     | Ok res => added = [res] /\ is_assignment res = true
     | Err _ => added = []
     end).
Proof.
  split; [|split].
  - rewrite evaluate_outcome. destruct (eval_expr rt (vars c) e); reflexivity.
  - rewrite evaluate_outcome. destruct (eval_expr rt (vars c) e) as [v|err].
    + eexists. cbn [fst snd history]. repeat split.
    + exists []. cbn [fst snd]. rewrite app_nil_r. split; reflexivity.
  - destruct (assign_failure rt c name e) as [[err H]|[v [Hid He]]].
    + rewrite H. exists []. cbn [fst snd]. rewrite app_nil_r. split; reflexivity.
    + rewrite (assign_success _ _ _ _ Hid He). eexists.
      cbn [fst snd history]. repeat split.
Qed.

(** X5.  In a session reached without [load], every variable holds the
    value of an assignment recorded in the history, under an expression
    text that starts with the variable's name and [" = "]. *)
Theorem variables_come_from_recorded_assignments
    (rt : runtime) (c : Calculator) (name : string) (v : value) :
  computed rt c ->
  dict_get (vars c) name = Some v ->
  exists res e,
    In res (history c) /\ is_assignment res = true /\ val res = v /\
    expr res = (name ++ " = " ++ e)%string.
Proof.
  intros H. revert name v.
  induction H as [|c n e _ IH|c e _ IH|c _ IH]; intros name v Hget.
  - discriminate.
  - destruct (assign_failure rt c n e) as [[err Hf]|[w [Hid He]]].
    + rewrite Hf in *. apply IH. exact Hget.
    + rewrite (assign_success _ _ _ _ Hid He) in *. cbn [snd vars history] in *.
      destruct (String.eqb_spec name (strip n)) as [->|Hne].
      * rewrite dict_get_set_same in Hget. injection Hget as <-.
        eexists. exists e. split; [apply in_or_app; right; left; reflexivity|].
        repeat split.
      * rewrite dict_get_set_other in Hget by exact Hne.
        destruct (IH _ _ Hget) as (res & e' & Hin & Hrest).
        exists res, e'. split; [apply in_or_app; left; exact Hin | exact Hrest].
  - rewrite evaluate_outcome in *.
    destruct (eval_expr rt (vars c) e); cbn [snd vars history] in *.
    + destruct (IH _ _ Hget) as (res & e' & Hin & Hrest).
      exists res, e'. split; [apply in_or_app; left; exact Hin | exact Hrest].
    + apply IH. exact Hget.
  - discriminate.
Qed.

Lemma variables_come_from_recorded_assignments_witness :
  exists res e,
    In res (history (snd (evaluate calc_runtime "x * 2"
                       (snd (assign calc_runtime "x" "10" new_calculator))))) /\
    is_assignment res = true /\ val res = VInt 10 /\
    expr res = ("x" ++ " = " ++ e)%string.
Proof.
  apply (@variables_come_from_recorded_assignments calc_runtime
           (snd (evaluate calc_runtime "x * 2"
              (snd (assign calc_runtime "x" "10" new_calculator))))
           "x" (VInt 10)).
  - apply comp_evaluate, comp_assign, comp_new.
  - vm_compute. reflexivity.
Defined.

(** ** What [load] leaves in the session *)







(** * Further properties of the evaluator *)

Lemma eval_Tuple (rt : runtime) (vars : dict value) (elts : list node) (ctx : node) :
  _eval rt vars (Tuple elts ctx) = (vs <- eval_list rt vars elts ;; Ok (VTuple vs)).
Proof.
  cbn [_eval].
  match goal with
  | |- bind (?f elts) _ = _ => assert (H : forall l, f l = eval_list rt vars l)
  end.
  { induction l as [|x l IH]; [reflexivity|].
    cbn [eval_list]. rewrite <- IH. reflexivity. }
  rewrite H. reflexivity.
Qed.

Lemma eval_List (rt : runtime) (vars : dict value) (elts : list node) (ctx : node) :
  _eval rt vars (List elts ctx) = (vs <- eval_list rt vars elts ;; Ok (VList vs)).
Proof.
  cbn [_eval].
  match goal with
  | |- bind (?f elts) _ = _ => assert (H : forall l, f l = eval_list rt vars l)
  end.
  { induction l as [|x l IH]; [reflexivity|].
    cbn [eval_list]. rewrite <- IH. reflexivity. }
  rewrite H. reflexivity.
Qed.

Lemma eval_list_ok (rt : runtime) (vars : dict value) (l : list node) (vs : list value) :
  eval_list rt vars l = Ok vs <->
  Forall2 (fun n v => _eval rt vars n = Ok v) l vs.
Proof.
  revert vs. induction l as [|n l IH]; intros vs; cbn [eval_list].
  - split.
    + intros [= <-]. constructor.
    + intros H. inversion H. reflexivity.
  - split.
    + destruct (_eval rt vars n) as [v|e] eqn:En; [|discriminate]. cbn [bind].
      destruct (eval_list rt vars l) as [ws|e] eqn:El; [|discriminate].
      intros [= <-]. constructor; [exact En | apply IH; reflexivity].
    + intros H. inversion H as [|n' v l' ws Hn Hl]; subst.
      rewrite Hn. cbn [bind]. apply IH in Hl. rewrite Hl. reflexivity.
Qed.

Lemma eval_list_err (rt : runtime) (vars : dict value) (l : list node) (e : exn) :
  eval_list rt vars l = Err e <->
  exists before n after vs,
    l = before ++ n :: after /\
    Forall2 (fun n v => _eval rt vars n = Ok v) before vs /\
    _eval rt vars n = Err e.
Proof.
  induction l as [|n l IH]; cbn [eval_list].
  - split; [discriminate|].
    intros (before & n & after & vs & H & _). destruct before; discriminate.
  - split.
    + destruct (_eval rt vars n) as [v|e'] eqn:En; cbn [bind].
      * destruct (eval_list rt vars l) as [ws|e'] eqn:El; [discriminate|].
        intros [= ->].
        destruct (proj1 IH eq_refl) as (before & m & after & vs & -> & Hb & Hm).
        exists (n :: before), m, after, (v :: vs).
        repeat split; [constructor; assumption | exact Hm].
      * intros [= ->]. exists [], n, l, []. repeat split; [constructor | exact En].
    + intros (before & m & after & vs & Hl & Hb & Hm).
      destruct before as [|b before]; cbn [app] in Hl; injection Hl as -> ->.
      * rewrite Hm. reflexivity.
      * inversion Hb as [|? v ? ws Hn Hrest]; subst. rewrite Hn. cbn [bind].
        assert (E : eval_list rt vars (before ++ m :: after) = Err e)
          by (apply IH; exists before, m, after, ws; auto).
        rewrite E. reflexivity.
Qed.

(** X7.  A tuple or list literal evaluates its elements from left to
    right: the result holds the value of each element, in order, and
    is a failure exactly when some element fails after all the elements
    before it evaluated, with that element's exception. *)
Theorem sequence_literal_evaluates_left_to_right
    (rt : runtime) (vars : dict value) (elts : list node) (ctx : node) :
  (forall vs, _eval rt vars (Tuple elts ctx) = Ok (VTuple vs) <->
              Forall2 (fun n v => _eval rt vars n = Ok v) elts vs) /\
  (forall vs, _eval rt vars (List elts ctx) = Ok (VList vs) <->
              Forall2 (fun n v => _eval rt vars n = Ok v) elts vs) /\
  (forall e, _eval rt vars (Tuple elts ctx) = Err e <->
             exists before n after vs,
               elts = before ++ n :: after /\
               Forall2 (fun n v => _eval rt vars n = Ok v) before vs /\
               _eval rt vars n = Err e) /\
  (forall e, _eval rt vars (List elts ctx) = Err e <->
             _eval rt vars (Tuple elts ctx) = Err e) /\
  (forall v, _eval rt vars (Tuple elts ctx) = Ok v ->
             exists vs, v = VTuple vs /\ List.length vs = List.length elts).
Proof.
  rewrite eval_Tuple, eval_List.
  split; [|split; [|split; [|split]]].
  - intros vs. rewrite <- eval_list_ok.
    destruct (eval_list rt vars elts); cbn [bind]; split; congruence.
  - intros vs. rewrite <- eval_list_ok.
    destruct (eval_list rt vars elts); cbn [bind]; split; congruence.
  - intros e. rewrite <- eval_list_err.
    destruct (eval_list rt vars elts); cbn [bind]; split; congruence.
  - intros e. destruct (eval_list rt vars elts); cbn [bind]; split; congruence.
  - intros v. destruct (eval_list rt vars elts) as [vs|] eqn:E; cbn [bind];
      [|discriminate].
    intros [= <-]. exists vs. split; [reflexivity|].
    apply eval_list_ok in E. symmetry. eapply Forall2_length. exact E.
Qed.

(** ** [sum], [min] and [max] *)

Lemma min_fold_ints (rt : runtime) (zs : list Z) (a : Z) :
  fold_left
    (fun acc item =>
       m <- acc ;; b <- py_compare rt Py_LT item m ;; Ok (if b then item else m))
    (map VInt zs) (Ok (VInt a)) = Ok (VInt (fold_left Z.min zs a)).
Proof.
  revert a. induction zs as [|z zs IH]; intros a; [reflexivity|].
  cbn [map fold_left bind py_compare as_number].
  replace (if z <? a then VInt z else VInt a) with (VInt (Z.min a z)).
  - apply IH.
  - destruct (Z.ltb_spec z a); f_equal; lia.
Qed.

Lemma max_fold_ints (rt : runtime) (zs : list Z) (a : Z) :
  fold_left
    (fun acc item =>
       m <- acc ;; b <- py_compare rt Py_GT item m ;; Ok (if b then item else m))
    (map VInt zs) (Ok (VInt a)) = Ok (VInt (fold_left Z.max zs a)).
Proof.
  revert a. induction zs as [|z zs IH]; intros a; [reflexivity|].
  cbn [map fold_left bind py_compare as_number].
  replace (if a <? z then VInt z else VInt a) with (VInt (Z.max a z)).
  - apply IH.
  - destruct (Z.ltb_spec a z); f_equal; lia.
Qed.

Lemma fold_min_spec (zs : list Z) (a : Z) :
  In (fold_left Z.min zs a) (a :: zs) /\
  Forall (fun x => fold_left Z.min zs a <= x) (a :: zs).
Proof.
  revert a. induction zs as [|z zs IH]; intros a; cbn [fold_left].
  - split; [left; reflexivity | repeat constructor; lia].
  - destruct (IH (Z.min a z)) as [Hin Hall].
    inversion Hall as [|? ? Hhd Htl]; subst. split.
    + destruct Hin as [Hin|Hin]; [|right; right; exact Hin].
      rewrite <- Hin. destruct (Z.min_spec a z) as [[_ ->]|[_ ->]];
        [left | right; left]; reflexivity.
    + constructor; [lia|]. constructor; [lia | exact Htl].
Qed.

Lemma fold_max_spec (zs : list Z) (a : Z) :
  In (fold_left Z.max zs a) (a :: zs) /\
  Forall (fun x => x <= fold_left Z.max zs a) (a :: zs).
Proof.
  revert a. induction zs as [|z zs IH]; intros a; cbn [fold_left].
  - split; [left; reflexivity | repeat constructor; lia].
  - destruct (IH (Z.max a z)) as [Hin Hall].
    inversion Hall as [|? ? Hhd Htl]; subst. split.
    + destruct Hin as [Hin|Hin]; [|right; right; exact Hin].
      rewrite <- Hin. destruct (Z.max_spec a z) as [[_ ->]|[_ ->]];
        [right; left | left]; reflexivity.
    + constructor; [lia|]. constructor; [lia | exact Htl].
Qed.

(** X8.  On integer arguments [min] and [max] return one of the
    arguments, below (above) all of them, and [sum] their exact sum;
    without arguments [min] and [max] raise [ValueError] while [sum]
    returns 0. *)
Theorem min_max_sum_of_integers (rt : runtime) (z : Z) (zs : list Z) :
  (exists m,
     call rt lambda_min (map VInt (z :: zs)) [] = Ok (VInt m) /\
     In m (z :: zs) /\ Forall (fun x => m <= x) (z :: zs)) /\
  (exists m,
     call rt lambda_max (map VInt (z :: zs)) [] = Ok (VInt m) /\
     In m (z :: zs) /\ Forall (fun x => x <= m) (z :: zs)) /\
  call rt lambda_sum (map VInt (z :: zs)) [] = Ok (VInt (fold_right Z.add 0 (z :: zs))) /\
  call rt lambda_min [] [] = Err (Builtin CValueError) /\
  call rt lambda_max [] [] = Err (Builtin CValueError) /\
  call rt lambda_sum [] [] = Ok (VInt 0).
Proof.
  split; [|split; [|split; [|repeat split]]].
  - exists (fold_left Z.min zs z). split; [apply min_fold_ints | apply fold_min_spec].
  - exists (fold_left Z.max zs z). split; [apply max_fold_ints | apply fold_max_spec].
  - cbn [call]. rewrite py_sum_ints. do 2 f_equal.
    rewrite <- fold_left_rev_right.
    assert (H : forall l a, fold_right (fun y x => x + y) a l = fold_right Z.add 0 l + a).
    { induction l as [|x l IH]; intros a; cbn [fold_right]; [lia|]. rewrite IH. lia. }
    rewrite H.
    assert (Hrev : forall l, fold_right Z.add 0 (rev l) = fold_right Z.add 0 l).
    { induction l as [|x l IH]; [reflexivity|]. cbn [rev fold_right].
      rewrite fold_right_app. cbn [fold_right].
      assert (G : forall l a, fold_right Z.add a l = fold_right Z.add 0 l + a).
      { induction l0 as [|y l0 IH0]; intros a; cbn [fold_right]; [lia|].
        rewrite IH0. lia. }
      rewrite G, IH. lia. }
    rewrite Hrev. lia.
Qed.

(** ** Evaluation looks only at the names in the expression *)

Lemma eval_Call (rt : runtime) (vars : dict value) (func : node)
    (args keywords : list node) :
  _eval rt vars (Call func args keywords) =
  (f <- _eval rt vars func ;;
   match f with
   | VFunc c =>
       a <- eval_list rt vars args ;;
       kvs <- eval_keyword_list rt vars keywords ;;
       kwargs <- kwargs_dict kvs [] ;;
       call rt c a kwargs
   | _ => Err (ValueError "Attempted to call non-callable")
   end).
Proof.
  cbn [_eval]. destruct (_eval rt vars func) as [f|e]; [|reflexivity].
  cbn [bind]. destruct f; try reflexivity.
  match goal with
  | |- bind (?f args) _ = _ => assert (Ha : forall l, f l = eval_list rt vars l)
  end.
  { induction l as [|x l IH]; [reflexivity|].
    cbn [eval_list]. rewrite <- IH. reflexivity. }
  rewrite Ha. destruct (eval_list rt vars args) as [a|e]; [|reflexivity].
  cbn [bind].
  match goal with
  | |- bind (?f keywords) _ = _ =>
      assert (Hk : forall l, f l = eval_keyword_list rt vars l)
  end.
  { induction l as [|x l IH]; [reflexivity|].
    cbn [eval_keyword_list]. rewrite <- IH. reflexivity. }
  rewrite Hk. reflexivity.
Qed.

Lemma preorder_all_incl (c : node) (l : list node) :
  In c l -> incl (preorder c) (preorder_all l).
Proof.
  induction l as [|a l IH]; cbn [In preorder_all]; [tauto|].
  intros [->|H] x Hx; apply in_or_app; [left; exact Hx | right; apply IH; assumption].
Qed.

(** The walk of a child is part of the walk of its parent. *)
Lemma preorder_child (n c : node) :
  In c (iter_child_nodes n) -> incl (preorder c) (preorder n).
Proof.
  intros H x Hx. rewrite (preorder_unfold n). right.
  eapply preorder_all_incl; eassumption.
Qed.

(** X9.  The value of an expression depends on the variables only
    through the names that occur in it: two variable mappings that
    agree on those names give the same outcome, value or exception.
    So assigning to a name an expression does not mention never
    changes what the expression evaluates to. *)
Theorem evaluation_depends_only_on_the_names_mentioned
    (rt : runtime) (vars vars' : dict value) (tree : node) :
  (forall id ctx, In (Name id ctx) (preorder tree) ->
                  dict_get vars id = dict_get vars' id) ->
  _eval rt vars tree = _eval rt vars' tree.
Proof.
  set (agree := fun n : node =>
         forall id ctx, In (Name id ctx) (preorder n) ->
                        dict_get vars id = dict_get vars' id).
  enough (H : forall n, agree n ->
                _eval rt vars n = _eval rt vars' n /\
                (forall x, keyword_value n = Some x ->
                           _eval rt vars x = _eval rt vars' x))
    by (intros Hagree; apply H; exact Hagree).
  induction n as [n IH] using node_children_ind. intros Hn.
  assert (child : forall c, In c (iter_child_nodes n) ->
                            _eval rt vars c = _eval rt vars' c /\
                            (forall x, keyword_value c = Some x ->
                                       _eval rt vars x = _eval rt vars' x)).
  { intros c Hc. rewrite Forall_forall in IH. apply (IH c Hc).
    intros id ctx Hin. apply (Hn id ctx). eapply preorder_child; eassumption. }
  assert (lists : forall l, incl l (iter_child_nodes n) ->
                            eval_list rt vars l = eval_list rt vars' l).
  { induction l as [|x l IHl]; intros Hl; [reflexivity|].
    cbn [eval_list]. rewrite (proj1 (child x (Hl x (or_introl eq_refl)))).
    rewrite IHl; [reflexivity|]. intros y Hy. apply Hl. right. exact Hy. }
  assert (kws : forall l, incl l (iter_child_nodes n) ->
                          eval_keyword_list rt vars l = eval_keyword_list rt vars' l).
  { induction l as [|x l IHl]; intros Hl; [reflexivity|].
    assert (Hx := child x (Hl x (or_introl eq_refl))).
    assert (Hrest : eval_keyword_list rt vars l = eval_keyword_list rt vars' l)
      by (apply IHl; intros y Hy; apply Hl; right; exact Hy).
    destruct x; try reflexivity.
    cbn [eval_keyword_list]. rewrite (proj2 Hx x eq_refl), Hrest. reflexivity. }
  split.
  - destruct n; try reflexivity.
    + match goal with
      | |- _eval _ _ (BinOp ?l _ ?r) = _ =>
          rewrite !eval_BinOp;
          rewrite (proj1 (child l (or_introl eq_refl)));
          rewrite (proj1 (child r (or_intror (or_intror (or_introl eq_refl)))))
      end. reflexivity.
    + match goal with
      | |- _eval _ _ (UnaryOp _ ?x) = _ =>
          rewrite !eval_UnaryOp;
          rewrite (proj1 (child x (or_intror (or_introl eq_refl))))
      end. reflexivity.
    + match goal with
      | |- _eval _ _ (Name ?i ?c) = _ =>
          cbn [_eval]; rewrite (Hn i c (preorder_head _))
      end. reflexivity.
    + match goal with
      | |- _eval _ _ (Call ?f ?a ?k) = _ =>
          rewrite !eval_Call;
          rewrite (proj1 (child f (or_introl eq_refl)));
          rewrite (lists a), (kws k);
          [reflexivity | |];
          intros y Hy; cbn [iter_child_nodes]; right; apply in_or_app; auto
      end.
    + match goal with
      | |- _eval _ _ (Tuple ?l _) = _ =>
          rewrite !eval_Tuple; rewrite (lists l); [reflexivity|];
          intros y Hy; cbn [iter_child_nodes]; apply in_or_app; auto
      end.
    + match goal with
      | |- _eval _ _ (List ?l _) = _ =>
          rewrite !eval_List; rewrite (lists l); [reflexivity|];
          intros y Hy; cbn [iter_child_nodes]; apply in_or_app; auto
      end.
  - intros x Hx. destruct n; try discriminate. injection Hx as ->.
    exact (proj1 (child x (or_introl eq_refl))).
Qed.

Lemma evaluation_depends_only_on_the_names_mentioned_witness :
  _eval calc_runtime [("x", VInt 10); ("y", VInt 1)]
    (BinOp (Name "x" Load) Mult (Constant (VInt 2))) =
  _eval calc_runtime [("y", VInt 7); ("x", VInt 10)]
    (BinOp (Name "x" Load) Mult (Constant (VInt 2))).
Proof.
  apply (@evaluation_depends_only_on_the_names_mentioned calc_runtime
           [("x", VInt 10); ("y", VInt 1)] [("y", VInt 7); ("x", VInt 10)]
           (BinOp (Name "x" Load) Mult (Constant (VInt 2)))).
  intros id ctx H. cbn in H.
  destruct H as [H|[H|[H|[H|[H|H]]]]]; try discriminate; try contradiction.
  injection H as <- <-. reflexivity.
Defined.

(** ** After validation the fallbacks of [_eval] are dead code *)

Lemma raises_builtin_ok {A : Type} (a : A) : raises_builtin (Ok a).
Proof. intros e H. discriminate. Qed.

Lemma raises_builtin_err {A : Type} (c : exn_class) :
  raises_builtin (@Err A (Builtin c)).
Proof. intros e [= <-]. eauto. Qed.

Lemma raises_builtin_bind {A B : Type} (r : result A) (k : A -> result B) :
  raises_builtin r -> (forall a, raises_builtin (k a)) -> raises_builtin (bind r k).
Proof.
  intros Hr Hk e. destruct r as [a|e']; cbn [bind].
  - apply Hk.
  - intros [= <-]. apply Hr. reflexivity.
Qed.

Lemma raises_builtin_int_to_float (z : Z) : raises_builtin (int_to_float z).
Proof. intros e H. apply int_to_float_error in H. eauto. Qed.

Lemma raises_builtin_int_true_divide (a b : Z) : raises_builtin (int_true_divide a b).
Proof.
  unfold int_true_divide. destruct (b =? 0); [apply raises_builtin_err|].
  destruct (SFdiv _ _ _ _); first [apply raises_builtin_ok | apply raises_builtin_err].
Qed.

Ltac builtin_step :=
  first
    [ apply raises_builtin_ok
    | apply raises_builtin_err
    | apply raises_builtin_int_to_float
    | apply raises_builtin_int_true_divide
    | apply raises_builtin_bind; [|intro]
    | assumption ].

Ltac builtin_crush :=
  repeat (builtin_step ||
          match goal with
          | |- raises_builtin (if ?b then _ else _) => destruct b
          | |- raises_builtin (match ?x with _ => _ end) => destruct x
          end).

Section BuiltinErrors.

Variable rt : runtime.
Hypothesis Hrt : runtime_raises_builtin rt.

Lemma raises_builtin_as_floats (a b : number) (k : float -> float -> result value) :
  (forall x y, raises_builtin (k x y)) -> raises_builtin (as_floats a b k).
Proof.
  intros Hk. unfold as_floats, type_error.
  destruct a, b; builtin_crush; apply Hk.
Qed.

Lemma raises_builtin_number_op (op : node) (on_int : Z -> Z -> result value)
    (on_float : float -> float -> result value) (a b : number) :
  (forall x y, raises_builtin (on_int x y)) ->
  (forall x y, raises_builtin (on_float x y)) ->
  raises_builtin (number_op rt op on_int on_float a b).
Proof.
  intros Hi Hf. destruct Hrt as (_ & Hc & _).
  unfold number_op. destruct a, b;
    first [apply Hi | apply Hc | apply raises_builtin_as_floats; exact Hf].
Qed.

Lemma raises_builtin_repeat (s : value) (n : Z) :
  raises_builtin (sequence_repeat s n).
Proof.
  unfold sequence_repeat, repeat_count, type_error. destruct s; builtin_crush.
Qed.

Lemma raises_builtin_binop (op : node) (l r : value) :
  has_sort SOperator op = true -> isinstance op ALLOWED_NODES = true ->
  raises_builtin (apply_binop rt op l r).
Proof.
  intros Hs Ha. pose proof Hrt as (Hpow & _ & Hfmt & _).
  destruct op; try discriminate;
    unfold apply_binop, py_add, py_sub, py_mul, py_truediv, py_floordiv,
           py_mod, py_pow, type_error.
  - destruct (as_number l), (as_number r);
      try (apply raises_builtin_number_op; intros; builtin_crush);
      destruct l, r; builtin_crush.
  - destruct (as_number l), (as_number r);
      try (apply raises_builtin_number_op; intros; builtin_crush); builtin_crush.
  - destruct (as_number l) as [[]|], (as_number r) as [[]|];
      try (apply raises_builtin_number_op; intros; builtin_crush);
      try apply raises_builtin_repeat; builtin_crush.
  - destruct (as_number l), (as_number r);
      try (apply raises_builtin_number_op; intros; builtin_crush); builtin_crush.
  - destruct (as_number l), (as_number r);
      try (apply raises_builtin_number_op; intros; builtin_crush); builtin_crush.
  - destruct l; try apply Hfmt;
      match goal with
      | |- raises_builtin (match as_number ?a with _ => _ end) =>
          destruct (as_number a), (as_number r);
          try (apply raises_builtin_number_op; intros; builtin_crush); builtin_crush
      end.
  - destruct (as_number l), (as_number r);
      try (apply raises_builtin_number_op; intros; builtin_crush;
           try apply raises_builtin_as_floats; try apply Hpow); builtin_crush.
Qed.

Lemma raises_builtin_unary (v : value) :
  raises_builtin (py_pos v) /\ raises_builtin (py_neg v).
Proof.
  unfold py_pos, py_neg, type_error.
  split; destruct (as_number v) as [[]|]; builtin_crush.
Qed.

Lemma raises_builtin_add (l r : value) : raises_builtin (py_add rt l r).
Proof. apply (raises_builtin_binop Add); reflexivity. Qed.

Lemma raises_builtin_sum (xs : list value) : raises_builtin (py_sum rt xs).
Proof.
  unfold py_sum.
  assert (H : forall acc, raises_builtin acc ->
                raises_builtin (fold_left (fun acc x => a <- acc ;; py_add rt a x) xs acc)).
  { induction xs as [|x xs IH]; intros acc Hacc; [exact Hacc|].
    cbn [fold_left]. apply IH. apply raises_builtin_bind; [exact Hacc|].
    intros a. apply raises_builtin_add. }
  apply H. apply raises_builtin_ok.
Qed.

Lemma raises_builtin_compare (c : cmpop) (a b : value) :
  raises_builtin (py_compare rt c a b).
Proof.
  destruct Hrt as (_ & _ & _ & Hcmp & _). unfold py_compare.
  destruct (as_number a) as [[]|], (as_number b) as [[]|];
    first [apply Hcmp | apply raises_builtin_ok].
Qed.

Lemma raises_builtin_extremum (c : cmpop) (xs : list value) :
  raises_builtin (py_extremum rt c xs).
Proof.
  unfold py_extremum. destruct xs as [|x rest]; [apply raises_builtin_err|].
  assert (H : forall acc, raises_builtin acc ->
                raises_builtin
                  (fold_left
                     (fun acc item =>
                        m <- acc ;; b <- py_compare rt c item m ;;
                        Ok (if b then item else m)) rest acc)).
  { induction rest as [|y rest IH]; intros acc Hacc; [exact Hacc|].
    cbn [fold_left]. apply IH. apply raises_builtin_bind; [exact Hacc|].
    intros m. apply raises_builtin_bind; [apply raises_builtin_compare|].
    intros b. apply raises_builtin_ok. }
  apply H. apply raises_builtin_ok.
Qed.

(** Every callable of the whitelist raises only exceptions of CPython's
    own. *)
Lemma raises_builtin_call (f : callable) (args : list value) (kwargs : dict value) :
  raises_builtin (call rt f args kwargs).
Proof.
  pose proof Hrt as (_ & _ & _ & _ & Hmod).
  assert (Hfact : raises_builtin (math_factorial args kwargs)).
  { unfold math_factorial, factorial_of, type_error.
    destruct kwargs; [|apply raises_builtin_err].
    destruct args as [|[] []]; builtin_crush. }
  assert (Hdiv : forall a b, raises_builtin (py_truediv rt a b))
    by (intros; apply (raises_builtin_binop Div); reflexivity).
  assert (Hmul : forall a b, raises_builtin (py_mul rt a b))
    by (intros; apply (raises_builtin_binop Mult); reflexivity).
  unfold call, type_error. destruct f.
  - repeat match goal with
           | |- raises_builtin (match ?s with _ => _ end) => destruct s
           | |- raises_builtin (if ?s then _ else _) => destruct s
           end; first [exact Hfact | apply Hmod].
  - apply Hmod.
  - destruct kwargs; [|apply raises_builtin_err].
    unfold avg. destruct args; [apply raises_builtin_ok|].
    apply raises_builtin_bind; [apply raises_builtin_sum | intro; apply Hdiv].
  - destruct kwargs; [apply raises_builtin_sum | apply raises_builtin_err].
  - destruct kwargs; [apply raises_builtin_extremum | apply raises_builtin_err].
  - destruct kwargs; [apply raises_builtin_extremum | apply raises_builtin_err].
  - apply raises_builtin_bind.
    + unfold bind_pct, type_error.
      repeat match goal with
             | |- raises_builtin (match ?s with _ => _ end) => destruct s
             | |- raises_builtin (if ?s then _ else _) => destruct s
             end; builtin_crush.
    + intros ab. unfold pct. apply raises_builtin_bind; [apply Hmul | intro; apply Hdiv].
Qed.

End BuiltinErrors.

Lemma check_children_ok (l : list node) :
  check_children l = Ok tt -> Forall (fun c => _check_node c = Ok tt) l.
Proof.
  induction l as [|c l IH]; cbn [check_children]; [constructor|].
  destruct (_check_node c) as [[]|] eqn:E; [|discriminate].
  cbn [bind]. intros H. constructor; [exact E | apply IH, H].
Qed.

(** A validated node is of an allowed class and its children are
    validated. *)
Lemma check_node_ok (n : node) :
  _check_node n = Ok tt ->
  isinstance n ALLOWED_NODES = true /\
  Forall (fun c => _check_node c = Ok tt) (iter_child_nodes n).
Proof.
  rewrite check_node_unfold.
  destruct (isinstance n ALLOWED_NODES); cbn [negb]; [|discriminate].
  intros H. split; [reflexivity | apply check_children_ok, H].
Qed.

Lemma all_well_sorted_in (s : sort) (l : list node) (c : node) :
  all_well_sorted s l = true -> In c l ->
  has_sort s c = true /\ well_sorted c = true.
Proof.
  induction l as [|a l IH]; cbn [all_well_sorted In]; [tauto|].
  intros H. apply andb_true_iff in H. destruct H as [H Hl].
  apply andb_true_iff in H. destruct H as [Hs Hw].
  intros [<-|Hin]; [split; assumption | apply IH; assumption].
Qed.

Lemma expected_error_is_not_internal (vars : dict value) (e : exn) :
  expected_error vars e -> error_kind_of e <> KInternalError.
Proof.
  intros [(id & -> & _)|[->|[c ->]]]; cbn; try discriminate.
  destruct c; discriminate.
Qed.

(** X10.  On a tree that passed validation and has the shape
    [ast.parse] gives its trees, evaluation never reaches its
    fallbacks: whatever the variables, an exception it raises is the
    [NameError] of a name neither mapping has, the [ValueError] of a
    callee that is not callable, or an exception raised by a Python
    operator or a whitelisted function, never "Unsupported node",
    "Unsupported operator" or "Unsupported unary operator". *)
Theorem validated_expression_never_reaches_a_fallback
    (rt : runtime) (vars : dict value) (body : node) (e : exn) :
  runtime_raises_builtin rt ->
  well_sorted (Expression body) = true ->
  _check_node (Expression body) = Ok tt ->
  _eval rt vars body = Err e ->
  expected_error vars e /\ error_kind_of e <> KInternalError.
Proof.
  intros Hrt Hsorted Hcheck Heval.
  enough (H : expected_error vars e)
    by (split; [exact H | eapply expected_error_is_not_internal; exact H]).
  cbn [well_sorted] in Hsorted. apply andb_true_iff in Hsorted.
  destruct Hsorted as [Hs Hw].
  apply check_node_ok in Hcheck. destruct Hcheck as [_ Hc].
  inversion Hc as [|? ? Hbody _]; subst. clear Hc.
  revert e Heval. revert Hs Hw Hbody.
  induction body as [n IH] using node_children_ind.
  intros Hs Hw Hcheck e Heval.
  apply check_node_ok in Hcheck. destruct Hcheck as [Hallowed Hchildren].
  rewrite Forall_forall in IH, Hchildren.
  assert (sub : forall c, In c (iter_child_nodes n) ->
                          has_sort SExpr c = true -> well_sorted c = true ->
                          forall e', _eval rt vars c = Err e' -> expected_error vars e')
    by (intros c Hin Hcs Hcw; apply IH; auto).
  assert (builtin : forall r : result value,
                      raises_builtin r -> r = Err e -> expected_error vars e)
    by (intros r Hr Hre; right; right; apply (Hr e Hre)).
  assert (lists : forall l, incl l (iter_child_nodes n) ->
                            all_well_sorted SExpr l = true ->
                            forall e', eval_list rt vars l = Err e' ->
                                       expected_error vars e').
  { intros l Hl Hall e' He'. apply eval_list_err in He'.
    destruct He' as (before & m & after & vs & -> & _ & Hm).
    assert (Hin : In m (before ++ m :: after))
      by (apply in_or_app; right; left; reflexivity).
    destruct (all_well_sorted_in _ _ _ Hall Hin) as [Hms Hmw].
    apply (sub m (Hl m Hin) Hms Hmw e' Hm). }
  destruct n; try discriminate.
  - (* BinOp *)
    cbn [well_sorted] in Hw. repeat (apply andb_true_iff in Hw; destruct Hw as [Hw ?]).
    rewrite eval_BinOp in Heval.
    match type of Heval with
    | context [_eval rt vars ?l] =>
        destruct (_eval rt vars l) as [a|ea] eqn:Ea;
        [|injection Heval as <-; apply (sub l); cbn; auto]
    end.
    cbn [bind] in Heval.
    match type of Heval with
    | context [_eval rt vars ?r] =>
        destruct (_eval rt vars r) as [b|eb] eqn:Eb;
        [|injection Heval as <-; apply (sub r); cbn; auto]
    end.
    cbn [bind] in Heval. eapply builtin; [|exact Heval].
    apply raises_builtin_binop; [exact Hrt | assumption |].
    apply check_node_ok. apply Hchildren. cbn. auto.
  - (* UnaryOp *)
    cbn [well_sorted] in Hw. repeat (apply andb_true_iff in Hw; destruct Hw as [Hw ?]).
    rewrite eval_UnaryOp in Heval.
    match type of Heval with
    | context [_eval rt vars ?x] =>
        destruct (_eval rt vars x) as [a|ea] eqn:Ea;
        [|injection Heval as <-; apply (sub x); cbn; auto]
    end.
    cbn [bind] in Heval.
    match type of Heval with
    | context [match ?op with _ => _ end] =>
        assert (Hop : isinstance op ALLOWED_NODES = true)
          by (apply check_node_ok; apply Hchildren; cbn; auto);
        destruct op; try discriminate
    end.
    + eapply builtin; [|exact Heval]. apply raises_builtin_unary.
    + eapply builtin; [|exact Heval]. apply raises_builtin_unary.
  - (* Name *)
    cbn [_eval] in Heval.
    match type of Heval with
    | context [dict_get vars ?id] =>
        destruct (dict_get vars id) eqn:Ev; [discriminate|];
        destruct (dict_get ALLOWED_GLOBALS id) eqn:Eg; [discriminate|];
        injection Heval as <-; left; exists id; auto
    end.
  - (* Call *)
    cbn [well_sorted] in Hw. fold all_well_sorted in Hw.
    repeat (apply andb_true_iff in Hw; destruct Hw as [Hw ?]).
    rewrite eval_Call in Heval.
    match type of Heval with
    | context [eval_keyword_list rt vars ?k] =>
        assert (Hk : k = []);
        [ destruct k as [|kw k']; [reflexivity|]; exfalso;
          match goal with
          | H : all_well_sorted SKeyword (kw :: k') = true |- _ =>
              cbn [all_well_sorted] in H;
              repeat (apply andb_true_iff in H; destruct H as [H ?])
          end;
          assert (Hkw : isinstance kw ALLOWED_NODES = true)
            by (apply check_node_ok; apply Hchildren; cbn [iter_child_nodes];
                right; apply in_or_app; right; left; reflexivity);
          destruct kw; discriminate
        | subst k ]
    end.
    match type of Heval with
    | context [_eval rt vars ?f] =>
        destruct (_eval rt vars f) as [fv|ef] eqn:Ef;
        [|injection Heval as <-; apply (sub f); cbn; auto]
    end.
    cbn [bind] in Heval.
    destruct fv; try (injection Heval as <-; right; left; reflexivity).
    match type of Heval with
    | context [eval_list rt vars ?a] =>
        destruct (eval_list rt vars a) as [av|ea] eqn:Ea;
        [|injection Heval as <-; apply (lists a);
          [intros y Hy; cbn [iter_child_nodes]; right; apply in_or_app; auto
          | assumption | exact Ea]]
    end.
    cbn [bind eval_keyword_list kwargs_dict] in Heval.
    eapply builtin; [|exact Heval]. apply raises_builtin_call, Hrt.
  - (* Tuple *)
    cbn [well_sorted] in Hw. fold all_well_sorted in Hw.
    repeat (apply andb_true_iff in Hw; destruct Hw as [Hw ?]).
    rewrite eval_Tuple in Heval.
    match type of Heval with
    | context [eval_list rt vars ?a] =>
        destruct (eval_list rt vars a) as [av|ea] eqn:Ea; [discriminate|];
        injection Heval as <-; apply (lists a);
        [intros y Hy; cbn [iter_child_nodes]; apply in_or_app; auto
        | assumption | exact Ea]
    end.
  - (* List *)
    cbn [well_sorted] in Hw. fold all_well_sorted in Hw.
    repeat (apply andb_true_iff in Hw; destruct Hw as [Hw ?]).
    rewrite eval_List in Heval.
    match type of Heval with
    | context [eval_list rt vars ?a] =>
        destruct (eval_list rt vars a) as [av|ea] eqn:Ea; [discriminate|];
        injection Heval as <-; apply (lists a);
        [intros y Hy; cbn [iter_child_nodes]; apply in_or_app; auto
        | assumption | exact Ea]
    end.
Qed.

(** * The read-evaluate-print loop *)

Lemma split_at_first_equals (lhs rhs : string) :
  has_equals lhs = false ->
  split_at_equals (lhs ++ "=" ++ rhs) = (lhs, rhs) /\
  has_equals (lhs ++ "=" ++ rhs) = true.
Proof.
  change ("=" ++ rhs)%string with (String "=" rhs).
  induction lhs as [|a lhs IH]; cbn [has_equals append split_at_equals].
  - intros _. split; reflexivity.
  - intros H. apply orb_false_iff in H. destruct H as [Ha Hl].
    rewrite Ha. destruct (IH Hl) as [-> ->]. split; [reflexivity|].
    apply orb_true_r.
Qed.



(** X12.  [:load] of a file that does not exist is not caught: the
    exception leaves [repl], nothing is printed, the session is as it
    was, and the lines typed after it are never read. *)
Theorem loading_a_missing_file_ends_the_repl
    (rt : runtime) (con : console) (raw path : string) (more rest : list string)
    (c : Calculator) (fs : files) :
  startswith_colon (strip raw) = true ->
  split (strip raw) = ":load" :: path :: more ->
  dict_get fs path = None ->
  repl_loop rt con (raw :: rest) c fs =
    {| printed := []; session := c; disk := fs; next := Raised (Builtin COSError) |}.
Proof.
  intros Hcolon Hsplit Hfile.
  assert (Hstep : repl_step rt con raw c fs =
                  {| printed := []; session := c; disk := fs;
                     next := Raised (Builtin COSError) |}).
  { unfold repl_step.
    destruct (strip raw) as [|a line] eqn:Hline; [discriminate|].
    rewrite Hcolon, Hsplit. cbn [hd tl drop_first].
    change (String.eqb "load" "help") with false.
    change (String.eqb "load" "vars") with false.
    change (String.eqb "load" "hist") with false.
    change (String.eqb "load" "clear") with false.
    change (String.eqb "load" "save") with false.
    change (String.eqb "load" "load") with true.
    cbv iota. unfold load. rewrite Hfile. reflexivity. }
  cbn [repl_loop]. rewrite Hstep. reflexivity.
Qed.

Lemma loading_a_missing_file_ends_the_repl_witness :
  repl_loop calc_runtime calc_console [" :load  nosuch.json now"; "1 + 1"; ":quit"]
    {| vars := [("x", VInt 1)]; history := [] |} [] =
    {| printed := []; session := {| vars := [("x", VInt 1)]; history := [] |};
       disk := []; next := Raised (Builtin COSError) |}.
Proof.
  apply (@loading_a_missing_file_ends_the_repl calc_runtime calc_console
           " :load  nosuch.json now" "nosuch.json" ["now"] ["1 + 1"; ":quit"]
           {| vars := [("x", VInt 1)]; history := [] |} []).
  - reflexivity.
  - reflexivity.
  - reflexivity.
Defined.

(** X13.  A line [name=text] that is not a command and holds no [==]
    is an assignment of what is right of the first [=], passed on as
    it is written: the name is stripped by [assign], the text is not
    stripped.  So when the parser refuses the text as it stands, as
    CPython's refuses text that starts with a blank, the turn prints
    the syntax error and the session is unchanged. *)
Theorem assignment_line_passes_the_text_unstripped
    (rt : runtime) (con : console) (raw lhs rhs : string)
    (c : Calculator) (fs : files) :
  strip raw = (lhs ++ "=" ++ rhs)%string ->
  startswith_colon (strip raw) = false ->
  has_equals lhs = false ->
  has_double_equals (strip raw) = false ->
  repl_step rt con raw c fs =
    match assign rt lhs rhs c with
    | (Ok res, c') =>
        {| printed := [(strip lhs ++ " = " ++ str_value con (val res))%string];
           session := c'; disk := fs; next := Loop |}
    | (Err e, c') =>
        {| printed := [("Error: " ++ str_exn con e)%string];
           session := c'; disk := fs; next := Loop |}
    end /\
  (forall msg,
     isidentifier (strip lhs) = true -> ast_parse rt rhs = inl msg ->
     repl_step rt con raw c fs =
       {| printed := [("Error: Syntax error: " ++ msg)%string];
          session := c; disk := fs; next := Loop |}).
Proof.
  intros Hline Hcolon Hlhs Hdouble.
  assert (Hstep : repl_step rt con raw c fs =
            match assign rt lhs rhs c with
            | (Ok res, c') =>
                {| printed := [(strip lhs ++ " = " ++ str_value con (val res))%string];
                   session := c'; disk := fs; next := Loop |}
            | (Err e, c') =>
                {| printed := [("Error: " ++ str_exn con e)%string];
                   session := c'; disk := fs; next := Loop |}
            end).
  { unfold repl_step. rewrite Hline in *.
    destruct (split_at_first_equals lhs rhs Hlhs) as [Hsplit Heq].
    destruct (lhs ++ "=" ++ rhs)%string as [|a line] eqn:E; [discriminate|].
    rewrite Hcolon, Hdouble, Heq, Hsplit. reflexivity. }
  split; [exact Hstep|].
  intros msg Hid Hparse. rewrite Hstep.
  unfold assign. rewrite Hid. cbn [negb].
  unfold mbind, evaluator_eval_expr, eval_expr. rewrite Hparse. reflexivity.
Qed.

Lemma assignment_line_passes_the_text_unstripped_witness :
  repl_step calc_runtime calc_console "x = 10" new_calculator [] =
    match assign calc_runtime "x " " 10" new_calculator with
    | (Ok res, c') =>
        {| printed := [(strip "x " ++ " = " ++ str_value calc_console (val res))%string];
           session := c'; disk := []; next := Loop |}
    | (Err e, c') =>
        {| printed := [("Error: " ++ str_exn calc_console e)%string];
           session := c'; disk := []; next := Loop |}
    end /\
  (forall msg,
     isidentifier (strip "x ") = true -> ast_parse calc_runtime " 10" = inl msg ->
     repl_step calc_runtime calc_console "x = 10" new_calculator [] =
       {| printed := [("Error: Syntax error: " ++ msg)%string];
          session := new_calculator; disk := []; next := Loop |}).
Proof.
  apply (@assignment_line_passes_the_text_unstripped calc_runtime calc_console
           "x = 10" "x " " 10" new_calculator []); reflexivity.
Defined.

Lemma calc_runtime_raises_builtin : runtime_raises_builtin calc_runtime.
Proof.
  repeat split; intros; intros e H; cbn in H; injection H as <-; eauto.
Qed.

Lemma validated_expression_never_reaches_a_fallback_witness :
  expected_error [("x", VInt 1)] (NameError "Unknown name: y") /\
  error_kind_of (NameError "Unknown name: y") <> KInternalError.
Proof.
  apply (@validated_expression_never_reaches_a_fallback calc_runtime [("x", VInt 1)]
           (BinOp (Name "x" Load) Add (Call (Name "sqrt" Load) [Name "y" Load] []))
           (NameError "Unknown name: y")).
  - exact calc_runtime_raises_builtin.
  - reflexivity.
  - reflexivity.
  - reflexivity.
Defined.

(** ** [pct] *)

(** X14.  [pct] takes its two arguments by position or by name, with
    the same result, and any other way of calling it is a [TypeError].
    On integers it is the exact product divided once by [100.0], so
    [pct(a, b)] and [pct(b, a)] agree, and the only exception is the
    [OverflowError] of a product too large for a [float]. *)
Theorem pct_of_integers (rt : runtime) (a b : Z) (x y : value) :
  call rt lambda_pct [VInt a; VInt b] [] =
    (p <- int_to_float (a * b) ;; Ok (VFloat (p / 100)%float)) /\
  call rt lambda_pct [VInt a; VInt b] [] = call rt lambda_pct [VInt b; VInt a] [] /\
  (forall e, call rt lambda_pct [VInt a; VInt b] [] = Err e -> e = Builtin COverflowError) /\
  call rt lambda_pct [x] [("b", y)] = call rt lambda_pct [x; y] [] /\
  call rt lambda_pct [] [("a", x); ("b", y)] = call rt lambda_pct [x; y] [] /\
  call rt lambda_pct [] [("b", y); ("a", x)] = call rt lambda_pct [x; y] [] /\
  call rt lambda_pct [x] [] = Err (Builtin CTypeError) /\
  call rt lambda_pct [x] [("a", y)] = Err (Builtin CTypeError) /\
  (forall z, call rt lambda_pct [x; y; z] [] = Err (Builtin CTypeError)).
Proof.
  assert (H : forall p q, call rt lambda_pct [VInt p; VInt q] [] =
                          (f <- int_to_float (p * q) ;; Ok (VFloat (f / 100)%float))).
  { intros p q. cbn [call bind_pct bind fst snd]. unfold pct.
    cbn [py_mul as_number number_op bind py_truediv as_floats].
    destruct (int_to_float (p * q)); reflexivity. }
  split; [apply H|].
  split; [rewrite !H; rewrite (Z.mul_comm b a); reflexivity|].
  split; [|repeat split; reflexivity].
  intros e. rewrite H. destruct (int_to_float (a * b)) eqn:E; [discriminate|].
  intros [= <-]. eapply int_to_float_error. exact E.
Qed.

(** * Two more facts about validation and integer division *)

(** X15.  Validation accepts a tree exactly when the class of every
    node of the tree is in [ALLOWED_NODES]. *)
Theorem validation_accepts_exactly_the_allowed_trees (tree : node) :
  _check_node tree = Ok tt <->
  forallb (fun n => isinstance n ALLOWED_NODES) (preorder tree) = true.
Proof.
  rewrite check_node_preorder. unfold check_outcome, first_rejected.
  split.
  - destruct (find rejected (preorder tree)) as [bad|] eqn:E; [discriminate|].
    intros _. apply forallb_forall. intros n Hn.
    pose proof (find_none _ _ E n Hn) as H. unfold rejected in H.
    apply negb_false_iff in H. exact H.
  - intros H. destruct (find rejected (preorder tree)) as [bad|] eqn:E; [|reflexivity].
    apply find_some in E. destruct E as [Hin Hbad].
    rewrite forallb_forall in H. unfold rejected in Hbad.
    rewrite (H bad Hin) in Hbad. discriminate.
Qed.

(** X16.  Floor division and remainder of integers fit together: when
    [l] and [r] evaluate to integers [a] and [b], [b] not zero, then
    [(l // r) * r + l % r] evaluates to [a], and [l % r] evaluates to
    an integer between zero and [b], zero included and [b] excluded,
    on the side of [b]. *)
Theorem floor_division_and_remainder_fit_together
    (rt : runtime) (vars : dict value) (l r : node) (a b : Z) :
  _eval rt vars l = Ok (VInt a) ->
  _eval rt vars r = Ok (VInt b) ->
  b <> 0 ->
  _eval rt vars (BinOp (BinOp (BinOp l FloorDiv r) Mult r) Add (BinOp l Mod r))
    = Ok (VInt a) /\
  exists m,
    _eval rt vars (BinOp l Mod r) = Ok (VInt m) /\
    (0 < b -> 0 <= m < b) /\ (b < 0 -> b < m <= 0).
Proof.
  intros Hl Hr Hb.
  assert (Hmod : _eval rt vars (BinOp l Mod r) = Ok (VInt (a mod b))).
  { rewrite eval_BinOp, Hl, Hr. cbn.
    destruct (Z.eqb_spec b 0); [contradiction | reflexivity]. }
  assert (Hdiv : _eval rt vars (BinOp l FloorDiv r) = Ok (VInt (a / b))).
  { rewrite eval_BinOp, Hl, Hr. cbn.
    destruct (Z.eqb_spec b 0); [contradiction | reflexivity]. }
  split.
  - rewrite eval_BinOp, Hmod. rewrite (eval_BinOp rt vars (BinOp l FloorDiv r)).
    rewrite Hdiv, Hr. cbn. do 2 f_equal.
    rewrite (Z.div_mod a b Hb) at 3. lia.
  - exists (a mod b). split; [exact Hmod|]. split; intros H.
    + apply Z.mod_pos_bound. exact H.
    + apply Z.mod_neg_bound. exact H.
Qed.

Lemma floor_division_and_remainder_fit_together_witness :
  _eval calc_runtime [("n", VInt (-7))]
    (BinOp (BinOp (BinOp (Name "n" Load) FloorDiv (Constant (VInt 2))) Mult
              (Constant (VInt 2))) Add
       (BinOp (Name "n" Load) Mod (Constant (VInt 2))))
    = Ok (VInt (-7)) /\
  exists m,
    _eval calc_runtime [("n", VInt (-7))] (BinOp (Name "n" Load) Mod (Constant (VInt 2)))
      = Ok (VInt m) /\
    (0 < 2 -> 0 <= m < 2) /\ (2 < 0 -> 2 < m <= 0).
Proof.
  apply (@floor_division_and_remainder_fit_together calc_runtime [("n", VInt (-7))]
           (Name "n" Load) (Constant (VInt 2)) (-7) 2).
  - reflexivity.
  - reflexivity.
  - lia.
Defined.
